(** * react-usewebworker: the request/response reducer, the guarded
    dispatcher, the [useWebWorker] hook and the worker entry [registerWorker].

    The development follows the two source files

    - [src/useWebWorker.ts]: [workerMessageReducer], [useSafeDispatch],
      [useWebWorker];
    - [src/registerWorker.ts]: [registerWorker].

    JavaScript values are embedded shallowly: [T | null] is [option T], a
    call that may throw returns a [completion], a mutable ref is a record
    field threaded through the steps, and the host objects the code talks to
    (the [Worker] handles of the page, the global scope [self] of a worker)
    are explicit records. *)

From stdpp Require Import base decidable option list strings.

Set Default Proof Using "Type".

(** ** JavaScript completions and errors *)

(** [new Error(msg)]: only the message matters here. *)
Record JsError : Type := mkError { message : string }.

#[global] Instance JsError_eq_dec : EqDecision JsError.
Proof. solve_decision. Defined.

(** The outcome of evaluating a call: a value, or an exception in flight. *)
Inductive completion (A : Type) : Type :=
  | Normal (a : A)
  | Throw (e : JsError).
Arguments Normal {A} a.
Arguments Throw {A} e.

(** Sequencing of calls, through stdpp's monad notation [x ← c; k]. *)
#[global] Instance completion_ret : MRet completion := fun A a => Normal a.
#[global] Instance completion_bind : MBind completion := fun A B k c =>
  match c with
  | Normal a => k a
  | Throw e => Throw e
  end.

(** ** The state machine ([src/useWebWorker.ts], lines 84-115) *)

Inductive Status : Type := idle | pending | stale | resolved | rejected.

#[global] Instance Status_eq_dec : EqDecision Status.
Proof. solve_decision. Defined.

(** [type State<T>]. *)
Record State (T : Type) : Type := mkState {
  status : Status;
  result : option T;
  error : option JsError;
}.
Arguments mkState {T} status result error.
Arguments status {T} s.
Arguments result {T} s.
Arguments error {T} s.

(** [type Action<T>]: five variants, the first of which the reducer does not
    handle. *)
Inductive Action (T : Type) : Type :=
  | ActIdle
  | ActPending
  | ActStale
  | ActResolved (data : T)
  | ActRejected (err : option JsError).
Arguments ActIdle {T}.
Arguments ActPending {T}.
Arguments ActStale {T}.
Arguments ActResolved {T} data.
Arguments ActRejected {T} err.

(** [action.type], the discriminant string. *)
Definition action_type {T : Type} (a : Action T) : string :=
  match a with
  | ActIdle => "idle"
  | ActPending => "pending"
  | ActStale => "stale"
  | ActResolved _ => "resolved"
  | ActRejected _ => "rejected"
  end.

Definition workerMessageReducer {T : Type} (state : State T) (action : Action T)
  : completion (State T) :=
  match action with
  | ActPending => Normal (mkState pending (result state) None)
  | ActStale => Normal (mkState stale (result state) None)
  | ActResolved data => Normal (mkState resolved (Some data) None)
  | ActRejected err => Normal (mkState rejected None err)
  | _ => Throw (mkError ("Unhandled action type: " +:+ action_type action))
  end.

(** [Partial<State<Result>>]: every key may be missing. *)
Record PartialState (T : Type) : Type := mkPartial {
  p_status : option Status;
  p_result : option (option T);
  p_error : option (option JsError);
}.
Arguments mkPartial {T} p_status p_result p_error.
Arguments p_status {T} p.
Arguments p_result {T} p.
Arguments p_error {T} p.

(** [{ status: "idle", result: null, error: null, ...initialState }]
    ([useWebWorker], lines 29-34). *)
Definition reducerState {T : Type} (initialState : option (PartialState T))
  : State T :=
  match initialState with
  | None => mkState idle None None
  | Some p =>
      mkState (default idle (p_status p))
              (default None (p_result p))
              (default None (p_error p))
  end.

(** ** The transition table of the specification

    The four events the orchestrator produces, and the next state the table
    of the specification gives for each.  [transition_table] is written from
    the table, not from the reducer; the theorems below compare the two. *)

Inductive Event (T : Type) : Type :=
  | Pending
  | Stale
  | Resolved (d : T)
  | Rejected (e : option JsError).
Arguments Pending {T}.
Arguments Stale {T}.
Arguments Resolved {T} d.
Arguments Rejected {T} e.

Definition action_of_event {T : Type} (ev : Event T) : Action T :=
  match ev with
  | Pending => ActPending
  | Stale => ActStale
  | Resolved d => ActResolved d
  | Rejected e => ActRejected e
  end.

Definition table_status {T : Type} (ev : Event T) : Status :=
  match ev with
  | Pending => pending
  | Stale => stale
  | Resolved _ => resolved
  | Rejected _ => rejected
  end.

Definition table_result {T : Type} (prev : option T) (ev : Event T) : option T :=
  match ev with
  | Pending | Stale => prev
  | Resolved d => Some d
  | Rejected _ => None
  end.

Definition table_error {T : Type} (ev : Event T) : option JsError :=
  match ev with
  | Rejected e => e
  | _ => None
  end.

Definition transition_table {T : Type} (s : State T) (ev : Event T) : State T :=
  mkState (table_status ev) (table_result (result s) ev) (table_error ev).

(** ** The guarded dispatcher ([useSafeDispatch], lines 118-132)

    [mounted] is the value of [mounted.current] when the returned callback is
    called; [dispatch] is the wrapped dispatcher, as a state transformer. *)

Definition useSafeDispatch {S A : Type} (mounted : bool)
    (dispatch : A -> S -> completion S) (action : A) (s : S) : completion S :=
  if mounted then dispatch action s else Normal s.

(** ** The page: [Worker] handles and what they report *)

(** What a [Worker] object of the page can report to its owner: a message
    ([message]), an uncaught error of the worker's script ([error], with the
    cause the host attaches to the event), a message that could not be
    decoded ([messageerror]). *)
Inductive WorkerSignal (Result : Type) : Type :=
  | SigMessage (data : Result)
  | SigError (cause : JsError)
  | SigMessageError.
Arguments SigMessage {Result} data.
Arguments SigError {Result} cause.
Arguments SigMessageError {Result}.

(** Identity of a [createWorker] callback (compared by reference). *)
Definition Factory : Type := nat.

Section Orchestrator.
Context {Input Result : Type} `{!EqDecision Input}.

(** One [Worker] object: the callback that made it, whether [terminate()]
    was called, the three handler slots the hook assigns (each handler
    ends in one [dispatch] call, so a slot holds the action it builds) and
    the payloads handed to [postMessage], oldest first. *)
Record WorkerObj : Type := mkWorker {
  made_by : Factory;
  terminated : bool;
  onmessage : option (Result -> Action Result);
  onerror : option (JsError -> Action Result);
  onmessageerror : option (unit -> Action Result);
  posted : list Input;
}.

Definition new_Worker (createWorker : Factory) : WorkerObj :=
  mkWorker createWorker false None None None [].

(** [worker.terminate()]. *)
Definition terminate_obj (o : WorkerObj) : WorkerObj :=
  mkWorker (made_by o) true (onmessage o) (onerror o) (onmessageerror o)
           (posted o).

(** [worker.postMessage(input)]; a terminated worker takes no message. *)
Definition postMessage_obj (input : Input) (o : WorkerObj) : WorkerObj :=
  if terminated o then o
  else mkWorker (made_by o) false (onmessage o) (onerror o)
                (onmessageerror o) (posted o ++ [input]).

(** The three assignments of lines 47-55. *)
Definition bind_obj (o : WorkerObj) : WorkerObj :=
  mkWorker (made_by o) (terminated o)
    (Some (fun data => ActResolved data))
    (Some (fun _ => ActRejected (Some (mkError "Worker error"))))
    (Some (fun _ => ActRejected (Some (mkError "Worker message error"))))
    (posted o).

(** ** The hook instance

    The state React keeps for one call site of [useWebWorker], together
    with the page's workers (handles are positions in [page]).
    [dispatched] lists the actions React's own dispatcher received,
    oldest first. *)
Record Hook : Type := mkHook {
  state : State Result;
  dispatched : list (Action Result);
  mounted : bool;
  createWorker_dep : Factory;
  worker : nat;
  lastWorker : nat;
  input_dep : Input;
  page : list WorkerObj;
}.

Definition set_page (f : list WorkerObj -> list WorkerObj) (h : Hook) : Hook :=
  mkHook (state h) (dispatched h) (mounted h) (createWorker_dep h) (worker h)
         (lastWorker h) (input_dep h) (f (page h)).

Definition set_mounted (b : bool) (h : Hook) : Hook :=
  mkHook (state h) (dispatched h) b (createWorker_dep h) (worker h)
         (lastWorker h) (input_dep h) (page h).

Definition set_lastWorker (w : nat) (h : Hook) : Hook :=
  mkHook (state h) (dispatched h) (mounted h) (createWorker_dep h) (worker h)
         w (input_dep h) (page h).

Definition set_input_dep (input : Input) (h : Hook) : Hook :=
  mkHook (state h) (dispatched h) (mounted h) (createWorker_dep h) (worker h)
         (lastWorker h) input (page h).

(** [useMemo(createWorker, [createWorker])] recomputing: a new [Worker]. *)
Definition remake_worker (createWorker : Factory) (h : Hook) : Hook :=
  mkHook (state h) (dispatched h) (mounted h) createWorker (length (page h))
         (lastWorker h) (input_dep h) (page h ++ [new_Worker createWorker]).

(** React's dispatcher for [useReducer(workerMessageReducer, ...)]. *)
Definition unsafeDispatch (action : Action Result) (h : Hook) : completion Hook :=
  s' ← workerMessageReducer (state h) action;
  Normal (mkHook s' (dispatched h ++ [action]) (mounted h)
                 (createWorker_dep h) (worker h) (lastWorker h)
                 (input_dep h) (page h)).

(** [const dispatch = useSafeDispatch(unsafeDispatch)]. *)
Definition dispatch (action : Action Result) (h : Hook) : completion Hook :=
  useSafeDispatch (mounted h) unsafeDispatch action h.

(** The layout effect of [useSafeDispatch] and its cleanup. *)
Definition safeDispatch_effect : Hook -> Hook := set_mounted true.
Definition safeDispatch_cleanup : Hook -> Hook := set_mounted false.

(** The first effect (lines 45-62), run for the worker [w] of the render,
    and the cleanup it returns. *)
Definition worker_effect (w : nat) (h : Hook) : Hook :=
  set_page (alter bind_obj w) (set_lastWorker w h).

Definition worker_cleanup (w : nat) : Hook -> Hook :=
  set_page (alter terminate_obj w).

(** The choice of lines 65-69. *)
Definition pre_request (st : Status) : Action Result :=
  if decide (st = resolved) then ActStale else ActPending.

(** The second effect (lines 64-71); [seen] is the [state] of the render
    whose closure the effect is. *)
Definition input_effect (seen : State Result) (input : Input) (h : Hook)
  : completion Hook :=
  h' ← dispatch (pre_request (status seen)) h;
  Normal (set_page (alter (postMessage_obj input) (lastWorker h')) h').

(** First render and commit of [useWebWorker(createWorker, input,
    initialState)] on a page that already holds the workers [page0]. *)
Definition mount (createWorker : Factory) (input : Input)
    (initialState : option (PartialState Result)) (page0 : list WorkerObj)
  : completion Hook :=
  let st := reducerState initialState in
  let w := length page0 in
  let h := mkHook st [] false createWorker w w input
                  (page0 ++ [new_Worker createWorker]) in
  input_effect st input (worker_effect w (safeDispatch_effect h)).

(** The part of a later render and commit that concerns the worker:
    [useMemo] keeps the worker while [createWorker] is the same callback;
    otherwise it makes a new one, and the commit runs the cleanup of the
    first effect for the old worker, then the effect for the new one. *)
Definition refresh_worker (createWorker : Factory) (h : Hook) : Hook :=
  if decide (createWorker = createWorker_dep h) then h
  else worker_effect (length (page h))
         (worker_cleanup (worker h) (remake_worker createWorker h)).

(** A later render and commit.  The render and the effects it schedules
    are taken as one step; the second effect runs only when [input] is not
    the one of the previous render. *)
Definition rerender (createWorker : Factory) (input : Input) (h : Hook)
  : completion Hook :=
  let seen := state h in
  let h1 := refresh_worker createWorker h in
  if decide (input = input_dep h) then Normal h1
  else input_effect seen input (set_input_dep input h1).

(** Unmount: the cleanups of the layout effect and of the first effect. *)
Definition unmount (h : Hook) : Hook :=
  worker_cleanup (worker h) (safeDispatch_cleanup h).

(** The action a bound observer of [o] dispatches for a signal. *)
Definition observer (o : WorkerObj) (sig : WorkerSignal Result)
  : option (Action Result) :=
  match sig with
  | SigMessage data => (fun k => k data) <$> onmessage o
  | SigError cause => (fun k => k cause) <$> onerror o
  | SigMessageError => (fun k => k tt) <$> onmessageerror o
  end.

(** Calling the observer bound on handle [w], whatever the worker's fate. *)
Definition call_observer (w : nat) (sig : WorkerSignal Result) (h : Hook)
  : completion Hook :=
  match o ← page h !! w; observer o sig with
  | Some action => dispatch action h
  | None => Normal h
  end.

(** The host firing an event on handle [w]: a terminated worker fires
    nothing. *)
Definition fire (w : nat) (sig : WorkerSignal Result) (h : Hook)
  : completion Hook :=
  match page h !! w with
  | Some o => if terminated o then Normal h else call_observer w sig h
  | None => Normal h
  end.

(** What can happen to a hook instance. *)
Inductive HookEvent : Type :=
  | EvRender (createWorker : Factory) (input : Input)
  | EvSignal (w : nat) (sig : WorkerSignal Result)
  | EvLate (w : nat) (sig : WorkerSignal Result)
  | EvUnmount.

Definition step (ev : HookEvent) (h : Hook) : completion Hook :=
  match ev with
  | EvRender createWorker input => rerender createWorker input h
  | EvSignal w sig => fire w sig h
  | EvLate w sig => call_observer w sig h
  | EvUnmount => Normal (unmount h)
  end.

Fixpoint run (evs : list HookEvent) (h : Hook) : completion Hook :=
  match evs with
  | [] => Normal h
  | ev :: evs' => h' ← step ev h; run evs' h'
  end.

(** What the three observers of lines 47-55 dispatch. *)
Definition observed_action (sig : WorkerSignal Result) : Action Result :=
  match sig with
  | SigMessage data => ActResolved data
  | SigError _ => ActRejected (Some (mkError "Worker error"))
  | SigMessageError => ActRejected (Some (mkError "Worker message error"))
  end.

Definition bound (o : WorkerObj) : Prop :=
  forall sig, observer o sig = Some (observed_action sig).

(** The worker behind handle [w] was terminated. *)
Definition silent (w : nat) (pg : list WorkerObj) : Prop :=
  exists o, pg !! w = Some o /\ terminated o = true.

(** A live instance: mounted, its ref pointing at the memoised worker,
    which is on the page, not terminated, with the observers bound. *)
Definition live (h : Hook) : Prop :=
  mounted h = true /\ lastWorker h = worker h /\
  exists o, page h !! worker h = Some o /\ terminated o = false /\ bound o.

Definition is_unmount (ev : HookEvent) : bool :=
  match ev with
  | EvUnmount => true
  | _ => false
  end.

(** Events a worker's handle delivers, as opposed to renders and unmount. *)
Definition is_delivery (ev : HookEvent) : bool :=
  match ev with
  | EvSignal _ _ | EvLate _ _ => true
  | _ => false
  end.

End Orchestrator.

Arguments WorkerObj : clear implicits.
Arguments Hook : clear implicits.
Arguments HookEvent : clear implicits.

(** ** The worker entry ([src/registerWorker.ts], lines 46-51) *)

(** A settled promise: what calling an [async] function returns once its
    body, which has no [await], has run. *)
Inductive promise (A : Type) : Type :=
  | Fulfilled (a : A)
  | RejectedWith (e : JsError).
Arguments Fulfilled {A} a.
Arguments RejectedWith {A} e.

(** Calling an [async] function never throws: an exception of the body
    rejects the returned promise. *)
Definition async {A : Type} (body : completion A) : completion (promise A) :=
  Normal match body with
         | Normal a => Fulfilled a
         | Throw e => RejectedWith e
         end.

Section WorkerEntry.
Context {Input Result : Type}.

(** The global scope [self] of a worker: the [onmessage] slot (the
    installed closure is determined by the [func] it captured), what was
    sent to the owning page ([self.postMessage] calls and uncaught
    exceptions the host reports as [error] events), oldest first, and the
    rejections of promises nobody handles ([unhandledrejection] on [self];
    they do not reach the owner). *)
Record WorkerGlobalScope : Type := mkScope {
  self_onmessage : option (Input -> completion Result);
  to_owner : list (WorkerSignal Result);
  unhandled_rejections : list JsError;
}.

Definition fresh_scope : WorkerGlobalScope := mkScope None [] [].

(** [self.postMessage(result)]. *)
Definition self_postMessage (result : Result) (self : WorkerGlobalScope)
  : WorkerGlobalScope :=
  mkScope (self_onmessage self) (to_owner self ++ [SigMessage result])
          (unhandled_rejections self).

(** The body of the installed handler, lines 48-49. *)
Definition handler_body (func : Input -> completion Result) (data : Input)
    (self : WorkerGlobalScope) : completion unit * WorkerGlobalScope :=
  match func data with
  | Normal result => (Normal tt, self_postMessage result self)
  | Throw e => (Throw e, self)
  end.

(** The handler itself: [async (event) => { ... }]. *)
Definition handler (func : Input -> completion Result) (data : Input)
    (self : WorkerGlobalScope)
  : completion (promise unit) * WorkerGlobalScope :=
  let '(c, self') := handler_body func data self in (async c, self').

Definition registerWorker (func : Input -> completion Result)
    (self : WorkerGlobalScope) : WorkerGlobalScope :=
  mkScope (Some func) (to_owner self) (unhandled_rejections self).

(** The host delivering one [message] event to the worker: it calls the
    handler in the slot; an exception thrown by the call is reported to the
    owner, a rejected promise returned by it has no handler. *)
Definition deliver (data : Input) (self : WorkerGlobalScope)
  : WorkerGlobalScope :=
  match self_onmessage self with
  | None => self
  | Some func =>
      match handler func data self with
      | (Throw e, self') =>
          mkScope (self_onmessage self') (to_owner self' ++ [SigError e])
                  (unhandled_rejections self')
      | (Normal (RejectedWith e), self') =>
          mkScope (self_onmessage self') (to_owner self')
                  (unhandled_rejections self' ++ [e])
      | (Normal (Fulfilled _), self') => self'
      end
  end.

Definition deliver_all (inputs : list Input) (self : WorkerGlobalScope)
  : WorkerGlobalScope :=
  foldl (fun s data => deliver data s) self inputs.

(** A caller-supplied function that never throws. *)
Definition pure_func (f : Input -> Result) : Input -> completion Result :=
  fun data => Normal (f data).

End WorkerEntry.

Arguments WorkerGlobalScope : clear implicits.

Section System.
Context {Input Result : Type} `{!EqDecision Input}.

(** The hook and its worker together: the worker behind handle [w] runs a
    script that calls [registerWorker(func)]; it handles every payload
    posted to it so far, and the page fires what it sent back. *)
Definition answer (func : Input -> completion Result) (w : nat)
    (h : Hook Input Result) : completion (Hook Input Result) :=
  match page h !! w with
  | Some o =>
      run (EvSignal w <$>
             to_owner (deliver_all (posted o) (registerWorker func fresh_scope)))
          h
  | None => Normal h
  end.

End System.

(** ** The specification's reading of Stale versus Pending

    Written from the specification's words: Stale is due when a Resolved
    event has fired since the last Rejected event or the idle baseline. *)

Definition resolved_since_baseline {T : Type} (history : list (Action T)) : bool :=
  foldl (fun seen a =>
           match a with
           | ActResolved _ => true
           | ActRejected _ => false
           | _ => seen
           end) false history.

Definition spec_pre_request {T : Type} (history : list (Action T)) : Action T :=
  if resolved_since_baseline history then ActStale else ActPending.

(** A concrete instance, inputs and results being numbers: the hook right
    after [useWebWorker(createWorker, 1)] mounted on an empty page, with
    [createWorker] the callback 0. *)
Definition mounted_hook : Hook nat nat :=
  mkHook (mkState pending None None) [ActPending] true 0 0 0 1
    [mkWorker 0 false
       (Some (fun data => ActResolved data))
       (Some (fun _ => ActRejected (Some (mkError "Worker error"))))
       (Some (fun _ => ActRejected (Some (mkError "Worker message error"))))
       [1]].

(** The claim that a change of [createWorker] alone, while a request is
    pending, ends with the current input sent again to the new handle. *)
Definition recreate_resends (Input Result : Type) `{!EqDecision Input} : Prop :=
  forall (h : Hook Input Result) (createWorker : Factory),
    live h -> status (state h) = pending ->
    createWorker <> createWorker_dep h ->
    exists h' o o',
      rerender createWorker (input_dep h) h = Normal h' /\
      page h' !! worker h = Some o /\ terminated o = true /\
      page h' !! worker h' = Some o' /\ made_by o' = createWorker /\
      posted o' = [input_dep h].

(** ** Runs of the hook *)

(** React working through a queue of actions: the reducer applied to each in
    turn, an exception ending the run. *)
Fixpoint reduce_all {T : Type} (s : State T) (actions : list (Action T))
  : completion (State T) :=
  match actions with
  | [] => Normal s
  | a :: rest => s' ← workerMessageReducer s a; reduce_all s' rest
  end.

Section Runs.
Context {Input Result : Type}.

(** A page on which every bound observer is one [useWebWorker] binds. *)
Definition tame (pg : list (WorkerObj Input Result)) : Prop :=
  forall w o sig a,
    pg !! w = Some o -> observer o sig = Some a -> a = observed_action sig.

(** The event lists React produces for one instance: renders and deliveries,
    then at most one unmount, after which only deliveries can follow. *)
Fixpoint lifecycle (evs : list (HookEvent Input Result)) : bool :=
  match evs with
  | [] => true
  | EvUnmount :: evs' => forallb is_delivery evs'
  | _ :: evs' => lifecycle evs'
  end.

(** What a worker running [registerWorker(func)] sends back for a list of
    payloads, and the exceptions it keeps to itself. *)
Definition responses (func : Input -> completion Result) (inputs : list Input)
  : list (WorkerSignal Result) :=
  omap (fun data => match func data with
                    | Normal r => Some (SigMessage r)
                    | Throw _ => None
                    end) inputs.

Definition rejections (func : Input -> completion Result) (inputs : list Input)
  : list JsError :=
  omap (fun data => match func data with
                    | Normal _ => None
                    | Throw e => Some e
                    end) inputs.

End Runs.

Section RunInvariant.
Context {Input Result : Type}.

(** Every worker the instance made (handles from [base] on) other than the
    current one is terminated. *)
Definition others_silent (base : nat) (h : Hook Input Result) : Prop :=
  forall w, base <= w < length (page h) -> w <> worker h -> silent w (page h).

(** What holds of an instance mounted on the page [page0] with
    [initialState], from the first commit on. *)
Definition hook_inv (page0 : list (WorkerObj Input Result))
    (initialState : option (PartialState Result)) (h : Hook Input Result)
  : Prop :=
  tame (page h) /\
  take (length page0) (page h) = page0 /\
  length page0 <= worker h < length (page h) /\
  others_silent (length page0) h /\
  reduce_all (reducerState initialState) (dispatched h) = Normal (state h) /\
  status (state h) <> idle.

(** Events that leave the arguments of the hook as they are: deliveries,
    and renders with the same [createWorker] and the same [input]. *)
Definition keeps_args `{!EqDecision Input} (createWorker : Factory)
    (input : Input) (ev : HookEvent Input Result) : bool :=
  match ev with
  | EvRender createWorker' input' =>
      bool_decide (createWorker' = createWorker /\ input' = input)
  | EvUnmount => false
  | _ => true
  end.

(** [h'] differs from [h] at most in the state and the dispatched actions:
    same workers with the same payloads posted, same dependencies. *)
Definition same_requests (h h' : Hook Input Result) : Prop :=
  page h' = page h /\ mounted h' = mounted h /\
  createWorker_dep h' = createWorker_dep h /\ worker h' = worker h /\
  lastWorker h' = lastWorker h /\ input_dep h' = input_dep h.

End RunInvariant.

(** A run on numbers: an answer, a render with another callback and another
    input, an answer of the old worker, the unmount, a late answer. *)
Definition sample_run : list (HookEvent nat nat) :=
  [EvSignal 0 (SigMessage 10); EvRender 1 2; EvSignal 0 (SigMessage 11);
   EvUnmount; EvLate 1 (SigMessage 3)].

(** ** The demo worker ([demo/heftyFunctionWorker.ts])

    Numbers are integers here; the theorem on the loop shows that every
    value it holds is an integer a double represents exactly. *)

Record HeftyFunctionArgs : Type := mkArgs { arg1 : string; arg2 : string }.

(** [for (let i = 0; i < limit; i++) { if (i % 2 === 0) { sum += i; } }],
    from the state [(i, sum)]; [fuel] bounds the number of iterations. *)
Fixpoint for_loop (fuel : nat) (limit i sum : Z) : option Z :=
  if (i <? limit)%Z then
    match fuel with
    | O => None
    | S fuel' =>
        for_loop fuel' limit (i + 1)%Z
          (if (Z.rem i 2 =? 0)%Z then (sum + i)%Z else sum)
    end
  else Some sum.

Definition computationHeavyFunction (fuel : nat) (input : HeftyFunctionArgs)
  : option Z :=
  let sum := 0%Z in
  let limit := 200000000%Z in
  for_loop fuel limit 0%Z sum.

(** Integers a double holds exactly: up to [2^53], and the even ones up to
    [2^54]. *)
Definition double_exact (z : Z) : Prop :=
  (Z.abs z <= 2 ^ 53 \/ (Z.abs z <= 2 ^ 54 /\ Z.rem z 2 = 0))%Z.

(** ** Null payloads

    [data: T] carries whatever the worker posted.  When the payload type has
    [null] among its values ([T] is [X | null], here [option X]), the field
    [result] holds JavaScript's [null] both when nothing is stored ([None])
    and when a null payload is stored ([Some None]): [js_result] is the
    value a reader of [state.result] gets. *)
Definition js_result {X : Type} (s : State (option X)) : option X :=
  match result s with
  | Some data => data
  | None => None
  end.

(** The claim that an event clearing a present result is a Rejected. *)
Definition only_rejected_clears (X : Type) : Prop :=
  forall (s : State (option X)) (ev : Event (option X)) (s' : State (option X)),
    workerMessageReducer s (action_of_event ev) = Normal s' ->
    js_result s <> None -> js_result s' = None -> exists e, ev = Rejected e.

(** ** A render and its effects, apart

    React runs the effects of a render after the commit; a worker's event
    can be handled in between.  [render_phase] is the render itself: it
    reads [state], lets [useMemo] make a new worker when [createWorker] is
    another callback, and compares the dependencies; [flush_effects] runs
    what it scheduled: the cleanup and the first effect when the worker
    changed, then the second effect, whose closure holds the [state] of that
    render, when the input changed. *)

Section RenderAndEffects.
Context {Input Result : Type} `{!EqDecision Input}.

Record Scheduled : Type := mkScheduled {
  seen : State Result;
  old_worker : option nat;
  to_post : option Input;
}.

Definition render_phase (createWorker : Factory) (input : Input)
    (h : Hook Input Result) : Hook Input Result * Scheduled :=
  (if decide (createWorker = createWorker_dep h) then h
   else remake_worker createWorker h,
   mkScheduled (state h)
     (if decide (createWorker = createWorker_dep h) then None
      else Some (worker h))
     (if decide (input = input_dep h) then None else Some input)).

Definition commit_worker (sch : Scheduled) (h : Hook Input Result)
  : Hook Input Result :=
  match old_worker sch with
  | Some old => worker_effect (worker h) (worker_cleanup old h)
  | None => h
  end.

Definition flush_effects (sch : Scheduled) (h : Hook Input Result)
  : completion (Hook Input Result) :=
  let h1 := commit_worker sch h in
  match to_post sch with
  | Some input => input_effect (seen sch) input (set_input_dep input h1)
  | None => Normal h1
  end.

(** Events of workers, each on its handle. *)
Definition deliveries (late : list (nat * WorkerSignal Result))
  : list (HookEvent Input Result) :=
  (fun p => EvSignal p.1 p.2) <$> late.

(** [h] with another state and other dispatched actions. *)
Definition with_store (s : State Result) (d : list (Action Result))
    (h : Hook Input Result) : Hook Input Result :=
  mkHook s d (mounted h) (createWorker_dep h) (worker h) (lastWorker h)
         (input_dep h) (page h).

End RenderAndEffects.

Arguments Scheduled : clear implicits.

(** * Theorems *)

(** ** The reducer *)

Section ReducerFacts.
Context {T : Type}.
Implicit Types (s : State T) (ev : Event T) (a : Action T).

Lemma reducer_event s ev :
  workerMessageReducer s (action_of_event ev) = Normal (transition_table s ev).
Proof. by destruct ev. Qed.

Lemma reducer_normal_inv s a s' :
  workerMessageReducer s a = Normal s' ->
  exists ev, a = action_of_event ev /\ s' = transition_table s ev.
Proof.
  destruct a as [| | |d|e]; simpl; intros Hs; try discriminate;
    injection Hs as <-.
  - by exists Pending.
  - by exists Stale.
  - by exists (Resolved d).
  - by exists (Rejected e).
Qed.

(** C1. On each of the four events the reducer returns exactly the next
    state of the specification's transition table, whatever the current
    status: Pending and Stale keep the result and clear the error,
    Resolved stores its data and clears the error, Rejected clears the
    result and stores its error; the error of the next state is present
    only after a Rejected event. *)
Theorem reducer_transition_table s :
  workerMessageReducer s ActPending
    = Normal (mkState pending (result s) None) /\
  workerMessageReducer s ActStale
    = Normal (mkState stale (result s) None) /\
  (forall d, workerMessageReducer s (ActResolved d)
    = Normal (mkState resolved (Some d) None)) /\
  (forall e, workerMessageReducer s (ActRejected e)
    = Normal (mkState rejected None e)) /\
  (forall ev, workerMessageReducer s (action_of_event ev)
    = Normal (transition_table s ev)) /\
  (forall ev s' e, workerMessageReducer s (action_of_event ev) = Normal s' ->
    error s' = Some e -> ev = Rejected (Some e)).
Proof.
  repeat split; try done.
  - apply reducer_event.
  - intros ev s' e Hs He. rewrite reducer_event in Hs. injection Hs as <-.
    destruct ev; simpl in He; try discriminate. by subst.
Qed.

(** C9. The fifth variant of the action type, idle, has no case: the
    reducer throws "Unhandled action type: idle" on it in every state. It
    returns a state on the four events, and those are the only actions on
    which it does. *)
Theorem reducer_idle_unhandled s :
  workerMessageReducer s ActIdle
    = Throw (mkError "Unhandled action type: idle") /\
  (forall ev, exists s', workerMessageReducer s (action_of_event ev) = Normal s') /\
  (forall a, (exists s', workerMessageReducer s a = Normal s') <-> a <> ActIdle) /\
  (forall a, a = ActIdle \/ exists ev, a = action_of_event ev).
Proof.
  split; [done|]. split; [|split].
  - intros ev. eexists. apply reducer_event.
  - intros a. split.
    + intros [s' Hs] ->. discriminate.
    + destruct a; try done; intros _; by eexists.
  - intros [| | |d|e]; [by left|right..].
    + by exists Pending.
    + by exists Stale.
    + by exists (Resolved d).
    + by exists (Rejected e).
Qed.

(** C10. No transition of the reducer ends in status idle: on each of the
    four events the next status is not idle (and on the idle action there
    is no next state).  The idle status comes from the default of the
    initial state, unless the caller's [initialState] gives another. *)
Theorem reducer_never_idle s ev :
  exists s', workerMessageReducer s (action_of_event ev) = Normal s' /\
    status s' <> idle /\
    (forall a s'', workerMessageReducer s a = Normal s'' -> status s'' <> idle) /\
    status (reducerState (T:=T) None) = idle /\
    (forall p : PartialState T,
      status (reducerState (Some p)) = default idle (p_status p)).
Proof.
  exists (transition_table s ev). split; [apply reducer_event|].
  split; [by destruct ev|]. split; [|done].
  intros a s'' Hs. apply reducer_normal_inv in Hs as (ev' & _ & ->).
  by destruct ev'.
Qed.

End ReducerFacts.

(** Witnesses: the implications above, used at concrete states. *)

Lemma reducer_transition_table_witness :
  workerMessageReducer (mkState pending (Some 7) None)
      (action_of_event (Rejected (Some (mkError "Worker error"))))
    = Normal (mkState rejected None (Some (mkError "Worker error"))) /\
  Rejected (T:=nat) (Some (mkError "Worker error"))
    = Rejected (Some (mkError "Worker error")).
Proof.
  split; [reflexivity|].
  eapply (reducer_transition_table (mkState pending (Some 7) None));
    reflexivity.
Defined.

(** C2 (amended). Pending and Stale leave the result field exactly as it
    was, Rejected sets it to absent whatever it was, and Resolved stores its
    payload, so that the result read afterwards is that payload: absent when
    the payload is itself null.  An event that clears a present result is a
    Rejected or a Resolved with a null payload; an event after which the
    result is a present value it was not before is the Resolved carrying
    that value. *)
Theorem reducer_result_frame {X : Type} (s : State (option X))
    (ev : Event (option X)) :
  exists s', workerMessageReducer s (action_of_event ev) = Normal s' /\
    (ev = Pending \/ ev = Stale -> result s' = result s) /\
    (forall e, ev = Rejected e -> result s' = None) /\
    (forall d, ev = Resolved d -> result s' = Some d /\ js_result s' = d) /\
    (js_result s <> None -> js_result s' = None ->
       (exists e, ev = Rejected e) \/ ev = Resolved None) /\
    (forall x, js_result s' = Some x -> js_result s <> Some x ->
       ev = Resolved (Some x)).
Proof.
  exists (transition_table s ev). split; [apply reducer_event|].
  split; [by intros [-> | ->]|]. split; [by intros e ->|].
  split; [by intros d ->|]. split.
  - destruct ev as [| | d | e]; unfold js_result; simpl; intros Hs Hr;
      try done; [right; by rewrite Hr|left; by exists e].
  - destruct ev as [| | d | e]; unfold js_result; simpl; intros x Hr Hs;
      try done. by rewrite Hr.
Qed.

Lemma reducer_result_frame_witness :
  js_result (mkState resolved (Some (Some 7)) None) <> None /\
  ((exists e, Rejected (T:=option nat) None = Rejected e) \/
   Rejected (T:=option nat) None = Resolved None).
Proof.
  split; [discriminate|].
  destruct (reducer_result_frame (mkState resolved (Some (Some 7)) None)
              (Rejected None)) as (s' & Hs & _ & _ & _ & Honly & _).
  apply Honly; [discriminate|].
  simpl in Hs. injection Hs as <-. reflexivity.
Defined.

(** C2, as stated, fails on a null payload: from a state holding the result
    7, a Resolved event whose payload is null leaves the result absent,
    and it is not a Rejected. *)
Lemma resolved_null_clears_result :
  js_result (mkState resolved (Some (Some 7)) None) = Some 7 /\
  workerMessageReducer (mkState resolved (Some (Some 7)) None)
      (action_of_event (Resolved (None : option nat)))
    = Normal (mkState resolved (Some None) None) /\
  js_result (mkState resolved (Some (None : option nat)) None) = None /\
  ~ only_rejected_clears nat.
Proof.
  split; [reflexivity|]. split; [reflexivity|]. split; [reflexivity|].
  intros Hclaim.
  destruct (Hclaim (mkState resolved (Some (Some 7)) None) (Resolved None)
              (mkState resolved (Some None) None) eq_refl)
    as [e He]; [discriminate|reflexivity|discriminate].
Qed.

(** ** The guarded dispatcher and the hook *)

Section HookFacts.
Context {Input Result : Type} `{!EqDecision Input}.
Implicit Types (h : Hook Input Result) (o : WorkerObj Input Result).
Implicit Types (sig : WorkerSignal Result) (a : Action Result).
Implicit Types (ev : HookEvent Input Result).

Lemma bound_bind_obj o : bound (bind_obj o).
Proof. by intros []. Qed.

Lemma bound_postMessage_obj (input : Input) o :
  bound o -> bound (postMessage_obj input o).
Proof.
  intros Hb sig. unfold postMessage_obj. destruct (terminated o); [done|].
  specialize (Hb sig). by destruct sig.
Qed.

(** A dropped dispatch and a forwarded one. *)
Lemma dispatch_unmounted a h : mounted h = false -> dispatch a h = Normal h.
Proof. unfold dispatch, useSafeDispatch. by intros ->. Qed.

Lemma dispatch_mounted a h :
  mounted h = true -> dispatch a h = unsafeDispatch a h.
Proof. unfold dispatch, useSafeDispatch. by intros ->. Qed.

Lemma call_observer_unmounted w sig h :
  mounted h = false -> call_observer w sig h = Normal h.
Proof.
  intros Hm. unfold call_observer.
  destruct (_ ≫= _); [by apply dispatch_unmounted|done].
Qed.

Lemma fire_unmounted w sig h : mounted h = false -> fire w sig h = Normal h.
Proof.
  intros Hm. unfold fire. destruct (page h !! w) as [o|]; [|done].
  destruct (terminated o); [done|by apply call_observer_unmounted].
Qed.

Lemma run_deliveries_unmounted (evs : list (HookEvent Input Result)) h :
  mounted h = false -> forallb is_delivery evs = true -> run evs h = Normal h.
Proof.
  intros Hm. induction evs as [|ev evs IH]; [done|].
  simpl. intros [Hev Hevs]%andb_prop.
  destruct ev as [| w sig | w sig |]; try discriminate; simpl.
  - rewrite fire_unmounted by done. simpl. by apply IH.
  - rewrite call_observer_unmounted by done. simpl. by apply IH.
Qed.

(** C3. Once the liveness flag is false, a dispatch through the guarded
    dispatcher changes nothing: after unmount every dispatched action,
    every event fired by a worker and every late call of a bound observer
    leaves the hook, hence the state it last returned, as it was.  While
    the flag is true the guarded dispatcher hands the action, unchanged,
    to React's dispatcher, whose next state is the reducer's. *)
Theorem no_mutation_after_teardown h :
  mounted (unmount h) = false /\
  state (unmount h) = state h /\
  (forall a, dispatch a (unmount h) = Normal (unmount h)) /\
  (forall evs, forallb is_delivery evs = true ->
     run evs (unmount h) = Normal (unmount h)) /\
  (forall (S A : Type) (d : A -> S -> completion S) (x : A) (s : S),
     useSafeDispatch false d x s = Normal s /\
     useSafeDispatch true d x s = d x s) /\
  (forall a, mounted h = true ->
     dispatch a h = unsafeDispatch a h /\
     (forall s', workerMessageReducer (state h) a = Normal s' ->
        exists h', dispatch a h = Normal h' /\ state h' = s' /\
          dispatched h' = dispatched h ++ [a]) /\
     (forall e, workerMessageReducer (state h) a = Throw e ->
        dispatch a h = Throw e)).
Proof.
  split; [done|]. split; [done|]. split; [|split; [|split]].
  - intros a. by apply dispatch_unmounted.
  - intros evs. by apply run_deliveries_unmounted.
  - done.
  - intros a Hm. rewrite dispatch_mounted by done.
    split; [done|]. unfold unsafeDispatch.
    split; [intros s' ->; by eexists|by intros e ->].
Qed.

(** *** The second effect *)

Lemma pre_request_stale (st : Status) :
  pre_request (Result:=Result) st = ActStale <-> st = resolved.
Proof. unfold pre_request. case_decide; split; intros; done. Qed.

Lemma pre_request_pending (st : Status) :
  pre_request (Result:=Result) st = ActPending <-> st <> resolved.
Proof. unfold pre_request. case_decide; split; intros; done. Qed.

Lemma pre_request_reduce (st : Status) (s : State Result) :
  workerMessageReducer s (pre_request st)
    = Normal (mkState (if decide (st = resolved) then stale else pending)
                      (result s) None).
Proof. unfold pre_request. by case_decide. Qed.

Lemma input_effect_mounted seen input h :
  mounted h = true ->
  input_effect seen input h
    = Normal (mkHook
        (mkState (if decide (status seen = resolved) then stale else pending)
                 (result (state h)) None)
        (dispatched h ++ [pre_request (status seen)])
        true (createWorker_dep h) (worker h) (lastWorker h) (input_dep h)
        (alter (postMessage_obj input) (lastWorker h) (page h))).
Proof.
  intros Hm. unfold input_effect. rewrite dispatch_mounted by done.
  unfold unsafeDispatch. rewrite pre_request_reduce, Hm. done.
Qed.

(** *** The first effect *)

Lemma refresh_worker_same createWorker h :
  createWorker = createWorker_dep h -> refresh_worker createWorker h = h.
Proof. intros ->. unfold refresh_worker. by case_decide. Qed.

Lemma refresh_worker_page createWorker h :
  createWorker <> createWorker_dep h ->
  page (refresh_worker createWorker h)
    = alter bind_obj (length (page h))
        (alter terminate_obj (worker h) (page h ++ [new_Worker createWorker])).
Proof. intros Hne. unfold refresh_worker. by case_decide. Qed.

Lemma refresh_worker_fields createWorker h :
  createWorker <> createWorker_dep h ->
  let h1 := refresh_worker createWorker h in
  state h1 = state h /\ dispatched h1 = dispatched h /\
  mounted h1 = mounted h /\ createWorker_dep h1 = createWorker /\
  worker h1 = length (page h) /\ lastWorker h1 = length (page h) /\
  input_dep h1 = input_dep h.
Proof. intros Hne. unfold refresh_worker. by case_decide. Qed.

Lemma refresh_worker_new createWorker h :
  createWorker <> createWorker_dep h ->
  worker h < length (page h) ->
  page (refresh_worker createWorker h) !! length (page h)
    = Some (bind_obj (new_Worker createWorker)).
Proof.
  intros Hne Hlt. rewrite refresh_worker_page by done.
  rewrite list_lookup_alter_eq, list_lookup_alter_ne by lia.
  by rewrite list_lookup_middle.
Qed.

Lemma refresh_worker_old createWorker h o :
  createWorker <> createWorker_dep h ->
  page h !! worker h = Some o ->
  page (refresh_worker createWorker h) !! worker h = Some (terminate_obj o).
Proof.
  intros Hne Ho. pose proof (lookup_lt_Some _ _ _ Ho) as Hlt.
  rewrite refresh_worker_page by done.
  rewrite list_lookup_alter_ne by lia.
  rewrite list_lookup_alter_eq, lookup_app_l, Ho by done. done.
Qed.

Lemma live_refresh_worker createWorker h :
  live h -> live (refresh_worker createWorker h).
Proof.
  intros Hl. destruct (decide (createWorker = createWorker_dep h)) as [Heq|Hne].
  - by rewrite refresh_worker_same.
  - destruct Hl as (Hm & _ & o & Ho%lookup_lt_Some & _).
    destruct (refresh_worker_fields createWorker h Hne)
      as (_ & _ & Hm' & _ & Hw & Hlw & _).
    split; [congruence|]. split; [congruence|].
    exists (bind_obj (new_Worker createWorker)).
    rewrite Hw, refresh_worker_new by done.
    split; [done|]. split; [done|apply bound_bind_obj].
Qed.

Lemma live_posted input h o :
  live h -> page h !! worker h = Some o ->
  alter (postMessage_obj input) (lastWorker h) (page h) !! worker h
    = Some (mkWorker (made_by o) false (onmessage o) (onerror o)
                     (onmessageerror o) (posted o ++ [input])).
Proof.
  intros (_ & -> & o' & Ho' & Ht & _) Ho.
  assert (o' = o) as -> by congruence.
  rewrite list_lookup_alter_eq, Ho. simpl.
  unfold postMessage_obj. by rewrite Ht.
Qed.

(** *** Mounting *)

Lemma mount_live createWorker input initialState
    (page0 : list (WorkerObj Input Result)) :
  exists h,
    mount createWorker input initialState page0 = Normal h /\ live h /\
    dispatched h = [pre_request (status (reducerState initialState))] /\
    workerMessageReducer (reducerState initialState)
      (pre_request (status (reducerState initialState))) = Normal (state h) /\
    worker h = length page0 /\ createWorker_dep h = createWorker /\
    input_dep h = input /\
    page h !! worker h
      = Some (postMessage_obj input (bind_obj (new_Worker createWorker))).
Proof.
  unfold mount. rewrite input_effect_mounted by done. eexists.
  split; [done|]. simpl.
  assert (alter (postMessage_obj input) (length page0)
            (alter bind_obj (length page0)
               (page0 ++ [new_Worker createWorker])) !! length page0
          = Some (postMessage_obj input (bind_obj (new_Worker createWorker))))
    as Hnew.
  { rewrite !list_lookup_alter_eq, list_lookup_middle by done. done. }
  split; [|by rewrite pre_request_reduce].
  split; [done|]. split; [done|]. eexists. split; [exact Hnew|].
  split; [done|]. by intros [].
Qed.

(** *** Later renders *)

Lemma refresh_worker_keeps createWorker h :
  state (refresh_worker createWorker h) = state h /\
  dispatched (refresh_worker createWorker h) = dispatched h /\
  mounted (refresh_worker createWorker h) = mounted h /\
  input_dep (refresh_worker createWorker h) = input_dep h.
Proof. unfold refresh_worker. by case_decide. Qed.

Lemma rerender_same_input createWorker h :
  rerender createWorker (input_dep h) h
    = Normal (refresh_worker createWorker h).
Proof. unfold rerender. by case_decide. Qed.

Lemma rerender_new_input createWorker input h :
  input <> input_dep h -> mounted h = true ->
  rerender createWorker input h
    = Normal (mkHook
        (mkState (if decide (status (state h) = resolved)
                  then stale else pending)
                 (result (state h)) None)
        (dispatched h ++ [pre_request (status (state h))]) true
        (createWorker_dep (refresh_worker createWorker h))
        (worker (refresh_worker createWorker h))
        (lastWorker (refresh_worker createWorker h))
        input
        (alter (postMessage_obj input)
           (lastWorker (refresh_worker createWorker h))
           (page (refresh_worker createWorker h)))).
Proof.
  intros Hin Hm. unfold rerender. case_decide; [done|].
  destruct (refresh_worker_keeps createWorker h) as (Hs & Hd & Hm' & _).
  rewrite input_effect_mounted by (simpl; congruence).
  simpl. by rewrite Hs, Hd.
Qed.

(** The hook after the second effect ran on a live instance. *)
Lemma live_after_post (s : State Result) (d : list (Action Result))
    input h o :
  live h -> page h !! worker h = Some o ->
  let h' := mkHook s d true (createWorker_dep h) (worker h) (lastWorker h)
              input (alter (postMessage_obj input) (lastWorker h) (page h)) in
  live h' /\
  exists o', page h' !! lastWorker h' = Some o' /\
    made_by o' = made_by o /\ posted o' = posted o ++ [input].
Proof.
  intros Hl Ho h'. pose proof (live_posted input h o Hl Ho) as Hp.
  destruct Hl as (_ & Hlw & o1 & Ho1 & _ & Hb).
  assert (o1 = o) as -> by congruence.
  split.
  - split; [done|]. split; [done|]. eexists. split; [exact Hp|].
    split; [done|]. intros sig. specialize (Hb sig). by destruct sig.
  - eexists. subst h'. simpl. rewrite Hlw at 1. split; [exact Hp|done].
Qed.

(** *** Terminated workers stay silent *)

Lemma silent_alter (f : WorkerObj Input Result -> WorkerObj Input Result)
    w' w (pg : list (WorkerObj Input Result)) :
  (forall o, terminated o = true -> terminated (f o) = true) ->
  silent w pg -> silent w (alter f w' pg).
Proof.
  intros Hf (o & Ho & Ht). destruct (decide (w' = w)) as [->|Hne].
  - exists (f o). rewrite list_lookup_alter_eq, Ho. auto.
  - exists o. by rewrite list_lookup_alter_ne.
Qed.

Lemma silent_app w (pg pg' : list (WorkerObj Input Result)) :
  silent w pg -> silent w (pg ++ pg').
Proof.
  intros (o & Ho & Ht). exists o. split; [|done].
  rewrite lookup_app_l; [done|]. by eapply lookup_lt_Some.
Qed.

Lemma silent_postMessage input w' w (pg : list (WorkerObj Input Result)) :
  silent w pg -> silent w (alter (postMessage_obj input) w' pg).
Proof.
  apply silent_alter. intros o Ht. unfold postMessage_obj. by rewrite Ht.
Qed.

Lemma silent_refresh_worker createWorker w h :
  silent w (page h) -> silent w (page (refresh_worker createWorker h)).
Proof.
  intros Hs. unfold refresh_worker. case_decide; [done|]. simpl.
  do 2 (apply silent_alter; [done|]). by apply silent_app.
Qed.

Lemma dispatch_page a h h' : dispatch a h = Normal h' -> page h' = page h.
Proof.
  unfold dispatch, useSafeDispatch, unsafeDispatch.
  destruct (mounted h); [|by intros [= <-]].
  destruct (workerMessageReducer _ _); simpl; [by intros [= <-]|done].
Qed.

Lemma call_observer_page w sig h h' :
  call_observer w sig h = Normal h' -> page h' = page h.
Proof.
  unfold call_observer. destruct (_ ≫= _); [apply dispatch_page|].
  by intros [= <-].
Qed.

Lemma fire_page w sig h h' : fire w sig h = Normal h' -> page h' = page h.
Proof.
  unfold fire. destruct (page h !! w) as [o|]; [|by intros [= <-]].
  destruct (terminated o); [by intros [= <-]|apply call_observer_page].
Qed.

Lemma input_effect_page seen input h h' :
  input_effect seen input h = Normal h' ->
  exists w, page h' = alter (postMessage_obj input) w (page h).
Proof.
  unfold input_effect.
  destruct (dispatch _ h) as [h1|e] eqn:Hd; simpl; [|done].
  intros [= <-]. exists (lastWorker h1). simpl.
  by rewrite (dispatch_page _ _ _ Hd).
Qed.

Lemma step_silent w ev h h' :
  silent w (page h) -> step ev h = Normal h' -> silent w (page h').
Proof.
  intros Hs. destruct ev as [createWorker input|w' sig|w' sig|]; simpl.
  - unfold rerender. case_decide.
    + intros [= <-]. by apply silent_refresh_worker.
    + intros (w1 & ->)%input_effect_page. simpl.
      by apply silent_postMessage, silent_refresh_worker.
  - by intros ->%fire_page.
  - by intros ->%call_observer_page.
  - intros [= <-]. simpl. by apply silent_alter.
Qed.

Lemma run_silent w (evs : list (HookEvent Input Result)) h h' :
  silent w (page h) -> run evs h = Normal h' -> silent w (page h').
Proof.
  revert h. induction evs as [|ev evs IH]; intros h Hs; simpl.
  - by intros [= <-].
  - destruct (step ev h) as [h1|e] eqn:Hstep; simpl; [|done].
    apply IH. by eapply step_silent.
Qed.

Lemma fire_silent w sig h : silent w (page h) -> fire w sig h = Normal h.
Proof. intros (o & Ho & Ht). unfold fire. by rewrite Ho, Ht. Qed.

(** *** Liveness is an invariant until unmount *)

Lemma dispatch_keeps a h h' :
  dispatch a h = Normal h' ->
  mounted h' = mounted h /\ worker h' = worker h /\
  lastWorker h' = lastWorker h /\ page h' = page h.
Proof.
  unfold dispatch, useSafeDispatch, unsafeDispatch.
  destruct (mounted h) eqn:Hm; [|by intros [= <-]].
  destruct (workerMessageReducer _ _); simpl; [by intros [= <-]|done].
Qed.

Lemma live_dispatch a h h' : live h -> dispatch a h = Normal h' -> live h'.
Proof.
  intros (Hm & Hlw & Ho) (Hm' & Hw' & Hlw' & Hp')%dispatch_keeps.
  unfold live. by rewrite Hm', Hw', Hlw', Hp'.
Qed.

Lemma live_call_observer w sig h h' :
  live h -> call_observer w sig h = Normal h' -> live h'.
Proof.
  intros Hl. unfold call_observer.
  destruct (_ ≫= _); [by apply live_dispatch|by intros [= <-]].
Qed.

Lemma step_live ev h h' :
  live h -> is_unmount ev = false -> step ev h = Normal h' -> live h'.
Proof.
  intros Hl Hev. destruct ev as [createWorker input|w sig|w sig|]; simpl;
    [| | |done].
  - destruct (decide (input = input_dep h)) as [->|Hin].
    + rewrite rerender_same_input. intros [= <-].
      by apply live_refresh_worker.
    + rewrite rerender_new_input by (done || apply Hl). intros [= <-].
      pose proof (live_refresh_worker createWorker h Hl) as Hl1.
      pose proof Hl1 as (_ & _ & o1 & Ho1 & _).
      by eapply live_after_post.
  - unfold fire. destruct (page h !! w) as [o|]; [|by intros [= <-]].
    destruct (terminated o); [by intros [= <-]|by apply live_call_observer].
  - by apply live_call_observer.
Qed.

Lemma run_live (evs : list (HookEvent Input Result)) h h' :
  live h -> existsb is_unmount evs = false -> run evs h = Normal h' ->
  live h'.
Proof.
  intros Hl. revert h Hl. induction evs as [|ev evs IH]; intros h Hl; simpl.
  - by intros _ [= <-].
  - intros [Hev Hevs]%orb_false_elim.
    destruct (step ev h) as [h1|e] eqn:Hstep; simpl; [|done].
    apply IH; [by eapply step_live|done].
Qed.

(** C4 (amended). When a render of a live instance comes with another
    [createWorker], the prior handle is terminated and stays silent
    through whatever happens next, a new handle is made by the new
    callback and has the observers bound, and the instance stays live on
    it.  The input is posted to the new handle only if it is not the
    previous render's input; with the same input nothing is posted to the
    new handle and the state and the dispatched actions are as before. *)
Theorem recipe_change_recreates_handle h createWorker input :
  live h -> createWorker <> createWorker_dep h ->
  exists h' o',
    rerender createWorker input h = Normal h' /\
    silent (worker h) (page h') /\
    (forall evs h'', run evs h' = Normal h'' ->
       forall sig, fire (worker h) sig h'' = Normal h'') /\
    worker h' = length (page h) /\ worker h' <> worker h /\
    createWorker_dep h' = createWorker /\ live h' /\
    page h' !! worker h' = Some o' /\ made_by o' = createWorker /\
    terminated o' = false /\ bound o' /\
    posted o' = (if decide (input = input_dep h) then [] else [input]) /\
    (input = input_dep h ->
       state h' = state h /\ dispatched h' = dispatched h).
Proof.
  intros Hl Hne. pose proof Hl as (Hm & Hlw & o & Ho & _).
  pose proof (lookup_lt_Some _ _ _ Ho) as Hlt.
  pose proof (live_refresh_worker createWorker h Hl) as Hl1.
  destruct (refresh_worker_fields createWorker h Hne)
    as (Hs & Hd & _ & Hdep & Hw & Hlw' & _).
  pose proof (refresh_worker_new createWorker h Hne Hlt) as Hnew.
  assert (silent (worker h) (page (refresh_worker createWorker h))) as Hsil.
  { exists (terminate_obj o). by rewrite (refresh_worker_old _ _ o). }
  assert (forall h', silent (worker h) (page h') ->
            forall evs h'', run evs h' = Normal h'' ->
              forall sig, fire (worker h) sig h'' = Normal h'') as Hquiet.
  { intros h' Hs' evs h'' Hrun sig. eapply fire_silent, run_silent; done. }
  destruct (decide (input = input_dep h)) as [->|Hin].
  - rewrite rerender_same_input.
    exists (refresh_worker createWorker h), (bind_obj (new_Worker createWorker)).
    split; [done|]. split; [done|]. split; [by apply Hquiet|].
    rewrite Hw. split; [done|]. split; [lia|]. split; [done|].
    split; [exact Hl1|]. split; [exact Hnew|]. split; [done|].
    split; [done|]. split; [apply bound_bind_obj|].
    split; done.
  - rewrite rerender_new_input by done.
    rewrite <-Hw in Hnew.
    destruct (live_after_post
                (mkState (if decide (status (state h) = resolved)
                          then stale else pending) (result (state h)) None)
                (dispatched h ++ [pre_request (status (state h))])
                input _ _ Hl1 Hnew) as (Hl' & o' & Ho' & Hmade & Hposted).
    pose proof Hl' as (_ & _ & o2 & Ho2 & Ht2 & Hb2).
    simpl in Ho', Ho2, Hmade, Hposted.
    rewrite Hlw' in Ho'. rewrite Hlw', Hw in Ho2, Hl'.
    assert (o2 = o') as -> by congruence.
    eexists _, o'. split; [done|]. simpl. rewrite Hlw', Hw.
    split; [by apply silent_postMessage|].
    split; [by apply Hquiet, silent_postMessage|].
    split; [done|]. split; [lia|]. split; [done|].
    split; [exact Hl'|]. split; [exact Ho'|]. split; [done|].
    split; [done|]. split; [done|].
    split; done.
Qed.

(** The three observers of a live instance: a signal fired on the current
    handle dispatches the observer's action, and the next state is the
    reducer's.  An error signal gives the same generic error whatever its
    cause. *)
Lemma fire_live sig h :
  live h ->
  exists h' s',
    fire (worker h) sig h = Normal h' /\
    workerMessageReducer (state h) (observed_action sig) = Normal s' /\
    state h' = s' /\ dispatched h' = dispatched h ++ [observed_action sig] /\
    page h' = page h /\ live h'.
Proof.
  intros (Hm & Hlw & o & Ho & Ht & Hb).
  unfold fire, call_observer. rewrite Ho, Ht. simpl. rewrite (Hb sig).
  rewrite dispatch_mounted by done. unfold unsafeDispatch.
  assert (exists s', workerMessageReducer (state h) (observed_action sig)
                     = Normal s') as [s' Hs'] by (destruct sig; by eexists).
  rewrite Hs'. simpl. eexists _, s'. split; [done|]. split; [done|].
  split; [done|]. split; [done|]. split; [done|].
  split; [done|]. split; [done|]. by exists o.
Qed.

End HookFacts.

(** Witnesses and evaluations on [mounted_hook]. *)

Lemma mount_mounted_hook : mount 0 1 None [] = Normal mounted_hook.
Proof. reflexivity. Qed.

Lemma live_mounted_hook : live mounted_hook.
Proof.
  split; [reflexivity|]. split; [reflexivity|]. eexists.
  split; [reflexivity|]. split; [reflexivity|]. intros []; reflexivity.
Qed.

Lemma no_mutation_after_teardown_witness :
  mounted mounted_hook = true /\
  dispatch (ActResolved 5) mounted_hook
    = unsafeDispatch (ActResolved 5) mounted_hook /\
  run [EvLate 0 (SigMessage 5); EvSignal 0 (SigError (mkError "late"))]
      (unmount mounted_hook) = Normal (unmount mounted_hook).
Proof.
  split; [reflexivity|].
  destruct (no_mutation_after_teardown mounted_hook)
    as (_ & _ & _ & Hlate & _ & Hfwd).
  split; [apply Hfwd; reflexivity|apply Hlate; reflexivity].
Defined.

Lemma recipe_change_recreates_handle_witness :
  live mounted_hook /\ 1 <> createWorker_dep mounted_hook /\
  exists h', rerender 1 1 mounted_hook = Normal h' /\
    silent 0 (page h') /\ worker h' = 1 /\ live h'.
Proof.
  split; [apply live_mounted_hook|]. split; [simpl; lia|].
  destruct (recipe_change_recreates_handle mounted_hook 1 1 live_mounted_hook)
    as (h' & _ & Hr & Hs & _ & Hw & _ & _ & Hl' & _); [simpl; lia|].
  exists h'. split; [exact Hr|]. split; [exact Hs|]. split; [exact Hw|exact Hl'].
Defined.

(** C4, as stated, fails on [mounted_hook], whose request is pending: a
    render with callback 1 and the same input 1 terminates the old worker
    and makes a new one, but posts nothing to it, and the state is as
    before. *)
Lemma recreate_resends_fails :
  live mounted_hook /\ status (state mounted_hook) = pending /\
  (exists h' o o',
     rerender 1 (input_dep mounted_hook) mounted_hook = Normal h' /\
     page h' !! worker mounted_hook = Some o /\ terminated o = true /\
     page h' !! worker h' = Some o' /\ made_by o' = 1 /\
     posted o' = [] /\ state h' = state mounted_hook) /\
  ~ recreate_resends nat nat.
Proof.
  split; [apply live_mounted_hook|]. split; [reflexivity|]. split.
  - eexists _, _, _. split; [reflexivity|]. by vm_compute.
  - intros Hclaim.
    destruct (Hclaim mounted_hook 1 live_mounted_hook eq_refl ltac:(done))
      as (h' & o & o' & Hr & _ & _ & Ho' & _ & Hposted).
    vm_compute in Hr. injection Hr as <-.
    vm_compute in Ho'. injection Ho' as <-. discriminate.
Qed.

(** C6, on a concrete run: after a result has resolved, the first change of
    input dispatches Stale and the second one, before any response,
    dispatches Pending, although a Resolved event has fired and no Rejected
    since; the specification's reading asks for Stale there. *)
Theorem second_input_change_dispatches_pending :
  mount 0 1 None [] = Normal mounted_hook /\
  exists h1 h2 h3 : Hook nat nat,
    fire 0 (SigMessage 10) mounted_hook = Normal h1 /\
    state h1 = mkState resolved (Some 10) None /\
    rerender 0 2 h1 = Normal h2 /\
    state h2 = mkState stale (Some 10) None /\
    dispatched h2 = [ActPending; ActResolved 10; ActStale] /\
    rerender 0 3 h2 = Normal h3 /\
    state h3 = mkState pending (Some 10) None /\
    dispatched h3 = [ActPending; ActResolved 10; ActStale; ActPending] /\
    spec_pre_request (dispatched h2) = ActStale.
Proof.
  split; [reflexivity|]. eexists _, _, _.
  split; [reflexivity|]. split; [reflexivity|].
  split; [reflexivity|]. split; [reflexivity|]. split; [reflexivity|].
  split; [reflexivity|]. split; [reflexivity|]. split; reflexivity.
Qed.

(** ** The worker entry *)

Section WorkerEntryFacts.
Context {Input Result : Type}.
Implicit Types (self : WorkerGlobalScope Input Result).
Implicit Types (func : Input -> completion Result) (data : Input).

(** One message, when [func] returns. *)
Lemma deliver_normal func data (r : Result) self :
  func data = Normal r ->
  deliver data (registerWorker func self)
    = mkScope (Some func) (to_owner self ++ [SigMessage r])
              (unhandled_rejections self).
Proof.
  intros Hf. unfold deliver, handler, handler_body. simpl. by rewrite Hf.
Qed.

(** One message, when [func] throws: the [async] handler turns the
    exception into a rejected promise, and nothing is sent to the owner. *)
Lemma deliver_throw func data (e : JsError) self :
  func data = Throw e ->
  deliver data (registerWorker func self)
    = mkScope (Some func) (to_owner self) (unhandled_rejections self ++ [e]).
Proof.
  intros Hf. unfold deliver, handler, handler_body. simpl. by rewrite Hf.
Qed.

Lemma deliver_all_pure (f : Input -> Result) (inputs : list Input) self :
  deliver_all inputs (registerWorker (pure_func f) self)
    = mkScope (Some (pure_func f))
              (to_owner self ++ ((fun x => SigMessage (f x)) <$> inputs))
              (unhandled_rejections self).
Proof.
  unfold deliver_all. induction inputs as [|x inputs IH] using rev_ind.
  - simpl. by rewrite app_nil_r.
  - by rewrite foldl_snoc, IH, fmap_snoc, app_assoc.
Qed.

(** C7. With a function [f] that returns on every input, the handler
    installed by [registerWorker] answers one message carrying [data] by
    exactly one message to the owner, carrying [f data], and leaves the
    rest of the scope as it was; the answers to a sequence of messages are
    the images of their payloads, one each and in order, and after any
    earlier messages the answer to [data] is still [f data]: an answer
    depends on its own payload and [f] only. *)
Theorem registerWorker_answers_each_message (f : Input -> Result) data self :
  deliver data (registerWorker (pure_func f) self)
    = mkScope (Some (pure_func f)) (to_owner self ++ [SigMessage (f data)])
              (unhandled_rejections self) /\
  handler (pure_func f) data self
    = (Normal (Fulfilled tt), self_postMessage (f data) self) /\
  (forall inputs,
     deliver_all inputs (registerWorker (pure_func f) self)
       = mkScope (Some (pure_func f))
                 (to_owner self ++ ((fun x => SigMessage (f x)) <$> inputs))
                 (unhandled_rejections self)) /\
  (forall inputs,
     deliver data (deliver_all inputs (registerWorker (pure_func f) self))
       = self_postMessage (f data)
           (deliver_all inputs (registerWorker (pure_func f) self))).
Proof.
  split; [by apply deliver_normal|]. split; [done|].
  split; [intros inputs; apply deliver_all_pure|].
  intros inputs. by rewrite !deliver_all_pure.
Qed.

End WorkerEntryFacts.

(** C8, on a throwing [func]: whenever [func] throws on a payload the worker
    sends nothing to its owner, neither a message nor an error, and the
    exception ends as an unhandled rejection inside the worker.  On a
    concrete run, with a [func] that throws on the payload 1 posted by
    [mounted_hook], the hook gets no signal and stays pending. *)
Theorem throwing_func_goes_unobserved :
  (forall (func : nat -> completion nat) data e self,
     func data = Throw e ->
     deliver data (registerWorker func self)
       = mkScope (Some func) (to_owner self)
                 (unhandled_rejections self ++ [e])) /\
  mount 0 1 None [] = Normal mounted_hook /\
  answer (fun _ : nat => Throw (mkError "boom")) 0 mounted_hook
    = Normal mounted_hook /\
  state mounted_hook = mkState pending None None.
Proof.
  split; [intros func data e self; apply deliver_throw|].
  split; [reflexivity|]. split; reflexivity.
Qed.

(** X1. The orchestrator's side of a fault: on a live instance an error signal
    of the current handle dispatches Rejected with the generic error "Worker
    error", whatever the cause, and clears the result. *)
Theorem fault_observer_rejects {Input Result : Type} `{!EqDecision Input}
    (h : Hook Input Result) (cause : JsError) :
  live h ->
  exists h', fire (worker h) (SigError cause) h = Normal h' /\
    state h' = mkState rejected None (Some (mkError "Worker error")) /\
    dispatched h'
      = dispatched h ++ [ActRejected (Some (mkError "Worker error"))].
Proof.
  intros Hl.
  destruct (fire_live (SigError cause) h Hl) as (h' & s' & Hf & Hs & <- & Hd & _).
  exists h'. split; [done|]. split; [|done].
  simpl in Hs. by injection Hs as <-.
Qed.

Lemma fault_observer_rejects_witness :
  live mounted_hook /\
  exists h', fire (worker mounted_hook) (SigError (mkError "boom")) mounted_hook
               = Normal h' /\
    state h' = mkState rejected None (Some (mkError "Worker error")).
Proof.
  split; [apply live_mounted_hook|].
  destruct (fault_observer_rejects mounted_hook (mkError "boom")
              live_mounted_hook) as (h' & Hf & Hs & _).
  exists h'. split; [exact Hf|exact Hs].
Defined.

(** ** Sequences of actions *)

Section ReducerRuns.
Context {T : Type}.
Implicit Types (s : State T) (ev : Event T) (a : Action T).

Lemma reduce_all_app s (acts1 acts2 : list (Action T)) :
  reduce_all s (acts1 ++ acts2)
    = s' ← reduce_all s acts1; reduce_all s' acts2.
Proof.
  revert s. induction acts1 as [|a acts1 IH]; intros s; simpl; [done|].
  destruct (workerMessageReducer s a); simpl; [apply IH|done].
Qed.

Lemma reduce_all_events s (evs : list (Event T)) :
  reduce_all s (action_of_event <$> evs) = Normal (foldl transition_table s evs).
Proof.
  revert s. induction evs as [|ev evs IH]; intros s; simpl; [done|].
  rewrite reducer_event. simpl. apply IH.
Qed.

Lemma reducer_returns_off_idle s a :
  a <> ActIdle -> exists s', workerMessageReducer s a = Normal s'.
Proof. destruct a; try done; intros _; by eexists. Qed.

Lemma reduce_all_idle s (acts : list (Action T)) :
  ActIdle ∈ acts -> exists e, reduce_all s acts = Throw e.
Proof.
  revert s. induction acts as [|a acts IH]; intros s Hin.
  - by apply elem_of_nil in Hin.
  - apply elem_of_cons in Hin as [<-|Hin]; simpl; [by eexists|].
    destruct (workerMessageReducer s a) as [s'|e]; simpl; [by apply IH|].
    by eexists.
Qed.

Lemma reduce_all_no_idle s (acts : list (Action T)) :
  ActIdle ∉ acts -> exists s', reduce_all s acts = Normal s'.
Proof.
  revert s. induction acts as [|a acts IH]; intros s Hin; simpl; [by eexists|].
  apply not_elem_of_cons in Hin as [Ha Hin].
  destruct (reducer_returns_off_idle s a) as [s' ->]; [done|].
  simpl. by apply IH.
Qed.

Lemma result_kept_by_requests s (evs : list (Event T)) :
  Forall (fun ev => ev = Pending \/ ev = Stale) evs ->
  result (foldl transition_table s evs) = result s.
Proof.
  intros Hevs. revert s. induction Hevs as [|ev evs [-> | ->] _ IH];
    intros s; simpl; [done|by rewrite IH..].
Qed.

(** X14. Sequences of actions through the reducer.  Dispatching an action
    twice in a row gives what dispatching it once gives.  After any events,
    a Resolved leaves status resolved with its data and no error, and a
    Rejected leaves status rejected with no result and its error, whatever
    came before.  Any number of Pending and Stale events keeps the result
    the state had.  A sequence of actions goes through without an exception
    exactly when it holds no idle action. *)
Theorem reducer_sequences s (evs : list (Event T)) :
  (forall a, reduce_all s [a; a] = reduce_all s [a]) /\
  (forall d, reduce_all s (action_of_event <$> evs ++ [Resolved d])
             = Normal (mkState resolved (Some d) None)) /\
  (forall e, reduce_all s (action_of_event <$> evs ++ [Rejected e])
             = Normal (mkState rejected None e)) /\
  (Forall (fun ev => ev = Pending \/ ev = Stale) evs ->
   exists s', reduce_all s (action_of_event <$> evs) = Normal s' /\
     result s' = result s) /\
  (forall acts : list (Action T),
     (exists s', reduce_all s acts = Normal s') <-> ActIdle ∉ acts).
Proof.
  split; [by intros []|].
  split; [intros d; by rewrite reduce_all_events, foldl_snoc|].
  split; [intros e; by rewrite reduce_all_events, foldl_snoc|].
  split.
  - intros Hevs. eexists. split; [apply reduce_all_events|].
    by apply result_kept_by_requests.
  - intros acts. split; [|apply reduce_all_no_idle].
    intros [s' Hs'] Hin. apply (reduce_all_idle s) in Hin as [e He].
    congruence.
Qed.

End ReducerRuns.

Lemma reducer_sequences_witness :
  Forall (fun ev : Event nat => ev = Pending \/ ev = Stale) [Stale; Pending] /\
  exists s', reduce_all (mkState resolved (Some 7) None)
               (action_of_event <$> [Stale; Pending]) = Normal s' /\
    result s' = Some 7.
Proof.
  assert (Forall (fun ev : Event nat => ev = Pending \/ ev = Stale)
            [Stale; Pending]) as Hevs.
  { constructor; [by right|]. constructor; [by left|]. constructor. }
  split; [exact Hevs|].
  destruct (reducer_sequences (mkState resolved (Some 7) None) [Stale; Pending])
    as (_ & _ & _ & Hkept & _).
  exact (Hkept Hevs).
Defined.

(** ** Runs of a mounted instance *)

Section HookRuns.
Context {Input Result : Type} `{!EqDecision Input}.
Implicit Types (h : Hook Input Result) (o : WorkerObj Input Result).
Implicit Types (pg : list (WorkerObj Input Result)).
Implicit Types (sig : WorkerSignal Result) (a : Action Result).
Implicit Types (ev : HookEvent Input Result).
Implicit Types (init : option (PartialState Result)).

(** *** Pages *)

Lemma tame_app_new (createWorker : Factory) pg :
  tame pg -> tame (pg ++ [new_Worker createWorker]).
Proof.
  intros Ht w o sig a Ho Hobs.
  apply lookup_app_Some in Ho as [Ho|[_ Ho]]; [by eapply Ht|].
  destruct (w - length pg) as [|n]; simpl in Ho; [|done].
  injection Ho as <-. by destruct sig.
Qed.

Lemma tame_alter (f : WorkerObj Input Result -> WorkerObj Input Result) w pg :
  (forall o sig, observer (f o) sig = observer o sig) ->
  tame pg -> tame (alter f w pg).
Proof.
  intros Hf Ht w' o' sig a Ho' Hobs.
  destruct (decide (w = w')) as [<-|Hne].
  - rewrite list_lookup_alter_eq in Ho'.
    apply fmap_Some in Ho' as (o & Ho & ->).
    rewrite Hf in Hobs. by eapply Ht.
  - rewrite list_lookup_alter_ne in Ho' by done. by eapply Ht.
Qed.

Lemma tame_bind w pg : tame pg -> tame (alter bind_obj w pg).
Proof.
  intros Ht w' o' sig a Ho' Hobs.
  destruct (decide (w = w')) as [<-|Hne].
  - rewrite list_lookup_alter_eq in Ho'.
    apply fmap_Some in Ho' as (o & Ho & ->).
    rewrite bound_bind_obj in Hobs. by injection Hobs as <-.
  - rewrite list_lookup_alter_ne in Ho' by done. by eapply Ht.
Qed.

Lemma tame_terminate w pg : tame pg -> tame (alter terminate_obj w pg).
Proof. apply tame_alter. by intros o []. Qed.

Lemma tame_postMessage (input : Input) w pg :
  tame pg -> tame (alter (postMessage_obj input) w pg).
Proof.
  apply tame_alter. intros o sig. unfold postMessage_obj.
  destruct (terminated o); [done|by destruct sig].
Qed.

Lemma silent_terminate w pg o :
  pg !! w = Some o -> silent w (alter terminate_obj w pg).
Proof.
  intros Ho. exists (terminate_obj o). by rewrite list_lookup_alter_eq, Ho.
Qed.

(** *** The invariant through a render *)

Lemma inv_refresh_worker (page0 : list (WorkerObj Input Result)) init
    (createWorker : Factory) h :
  live h -> hook_inv page0 init h ->
  hook_inv page0 init (refresh_worker createWorker h).
Proof.
  intros (_ & _ & o & Ho & _) Hinv.
  destruct (decide (createWorker = createWorker_dep h)) as [Heq|Hne];
    [by rewrite refresh_worker_same|].
  destruct Hinv as (Ht & Htake & Hw & Hos & Hred & Hst).
  destruct (refresh_worker_fields createWorker h Hne)
    as (Hs & Hd & _ & _ & Hw' & _).
  unfold hook_inv, others_silent.
  rewrite Hs, Hd, Hw', refresh_worker_page by done.
  rewrite !length_alter, length_app. simpl.
  split; [by apply tame_bind, tame_terminate, tame_app_new|].
  split; [by rewrite !take_alter_ge, take_app_le by lia|].
  split; [lia|]. split; [|done].
  intros w Hrange Hcur. apply silent_alter; [done|].
  destruct (decide (w = worker h)) as [->|Hold].
  - apply silent_terminate with o. rewrite lookup_app_l; [done|lia].
  - apply silent_alter; [done|]. apply silent_app, Hos; [lia|done].
Qed.

Lemma inv_after_post (page0 : list (WorkerObj Input Result)) init
    (st : Status) (input : Input) h :
  live h -> hook_inv page0 init h ->
  hook_inv page0 init
    (mkHook (mkState (if decide (st = resolved) then stale else pending)
                     (result (state h)) None)
            (dispatched h ++ [pre_request st]) true (createWorker_dep h)
            (worker h) (lastWorker h) input
            (alter (postMessage_obj input) (lastWorker h) (page h))).
Proof.
  intros (_ & Hlw & _) (Ht & Htake & Hw & Hos & Hred & Hst).
  unfold hook_inv, others_silent. simpl. rewrite length_alter.
  split; [by apply tame_postMessage|].
  split; [by rewrite take_alter_ge by lia|].
  split; [done|]. split; [|split].
  - intros w Hrange Hcur. by apply silent_postMessage, Hos.
  - rewrite reduce_all_app, Hred. simpl. by rewrite pre_request_reduce.
  - by case_decide.
Qed.

Lemma mount_inv (createWorker : Factory) (input : Input) init
    (page0 : list (WorkerObj Input Result)) :
  tame page0 ->
  exists h, mount createWorker input init page0 = Normal h /\
    live h /\ hook_inv page0 init h.
Proof.
  intros Ht.
  destruct (mount_live createWorker input init page0) as (h & Hm & Hl & _).
  exists h. split; [done|]. split; [done|].
  unfold mount in Hm. rewrite input_effect_mounted in Hm by done.
  injection Hm as <-. unfold hook_inv, others_silent. simpl.
  rewrite !length_alter, length_app. simpl.
  split; [by apply tame_postMessage, tame_bind, tame_app_new|].
  split; [by rewrite !take_alter_ge, take_app_length by lia|].
  split; [lia|]. split; [intros w; lia|].
  split; [by rewrite pre_request_reduce|by case_decide].
Qed.

Lemma rerender_inv (page0 : list (WorkerObj Input Result)) init
    (createWorker : Factory) (input : Input) h :
  live h -> hook_inv page0 init h ->
  exists h', rerender createWorker input h = Normal h' /\
    live h' /\ hook_inv page0 init h'.
Proof.
  intros Hl Hinv.
  pose proof (live_refresh_worker createWorker h Hl) as Hl1.
  pose proof (inv_refresh_worker page0 init createWorker h Hl Hinv) as Hinv1.
  destruct (decide (input = input_dep h)) as [->|Hin].
  - rewrite rerender_same_input. by eexists.
  - rewrite rerender_new_input by (done || apply Hl).
    destruct (refresh_worker_keeps createWorker h) as (Hs & Hd & _).
    rewrite <-Hs, <-Hd. eexists. split; [done|].
    pose proof Hl1 as (_ & _ & o1 & Ho1 & _).
    split; [by eapply live_after_post|by apply inv_after_post].
Qed.

(** *** The invariant through a delivery *)

Lemma dispatch_observed_inv (page0 : list (WorkerObj Input Result)) init
    sig h :
  live h -> hook_inv page0 init h ->
  exists h', dispatch (observed_action sig) h = Normal h' /\
    live h' /\ hook_inv page0 init h'.
Proof.
  intros Hl (Ht & Htake & Hw & Hos & Hred & Hst).
  pose proof Hl as (Hm & Hlw & Ho).
  rewrite dispatch_mounted by done. unfold unsafeDispatch.
  destruct (reducer_returns_off_idle (state h) (observed_action sig))
    as [s' Hs']; [by destruct sig|].
  rewrite Hs'. simpl. eexists. split; [done|]. split; [done|].
  unfold hook_inv, others_silent. simpl.
  split; [done|]. split; [done|]. split; [done|]. split; [done|].
  split; [rewrite reduce_all_app, Hred; simpl; by rewrite Hs'|].
  apply reducer_normal_inv in Hs' as (ev' & _ & ->). by destruct ev'.
Qed.

Lemma call_observer_inv (page0 : list (WorkerObj Input Result)) init
    w sig h :
  live h -> hook_inv page0 init h ->
  exists h', call_observer w sig h = Normal h' /\
    live h' /\ hook_inv page0 init h'.
Proof.
  intros Hl Hinv. unfold call_observer.
  destruct (page h !! w) as [o|] eqn:Ho; simpl; [|by eexists].
  destruct (observer o sig) as [a|] eqn:Hobs; [|by eexists].
  destruct Hinv as (Ht & Hrest). rewrite (Ht w o sig a Ho Hobs).
  apply dispatch_observed_inv; [done|by split].
Qed.

Lemma fire_inv (page0 : list (WorkerObj Input Result)) init w sig h :
  live h -> hook_inv page0 init h ->
  exists h', fire w sig h = Normal h' /\ live h' /\ hook_inv page0 init h'.
Proof.
  intros Hl Hinv. unfold fire.
  destruct (page h !! w) as [o|] eqn:Ho; [|by eexists].
  destruct (terminated o); [by eexists|by apply call_observer_inv].
Qed.

Lemma step_inv (page0 : list (WorkerObj Input Result)) init ev h :
  live h -> hook_inv page0 init h -> is_unmount ev = false ->
  exists h', step ev h = Normal h' /\ live h' /\ hook_inv page0 init h'.
Proof.
  intros Hl Hinv Hev. destruct ev as [createWorker input|w sig|w sig|]; simpl.
  - by apply rerender_inv.
  - by apply fire_inv.
  - by apply call_observer_inv.
  - done.
Qed.

Lemma run_inv (page0 : list (WorkerObj Input Result)) init
    (evs : list (HookEvent Input Result)) h :
  live h -> hook_inv page0 init h -> existsb is_unmount evs = false ->
  exists h', run evs h = Normal h' /\ live h' /\ hook_inv page0 init h'.
Proof.
  revert h. induction evs as [|ev evs IH]; intros h Hl Hinv; simpl.
  - intros _. by eexists.
  - intros [Hev Hevs]%orb_false_elim.
    destruct (step_inv page0 init ev h Hl Hinv Hev) as (h1 & -> & Hl1 & Hinv1).
    simpl. by apply IH.
Qed.

(** *** Unmount and what follows *)

Lemma unmount_inv (page0 : list (WorkerObj Input Result)) init h :
  live h -> hook_inv page0 init h ->
  hook_inv page0 init (unmount h) /\ mounted (unmount h) = false /\
  silent (worker (unmount h)) (page (unmount h)).
Proof.
  intros (_ & _ & o & Ho & _) (Ht & Htake & Hw & Hos & Hred & Hst).
  split; [|split; [done|by apply silent_terminate with o]].
  unfold hook_inv, others_silent. simpl. rewrite length_alter.
  split; [by apply tame_terminate|].
  split; [by rewrite take_alter_ge by lia|].
  split; [done|]. split; [|done].
  intros w Hrange Hcur. apply silent_alter; [done|by apply Hos].
Qed.

Lemma run_app (evs1 evs2 : list (HookEvent Input Result)) h :
  run (evs1 ++ evs2) h = h' ← run evs1 h; run evs2 h'.
Proof.
  revert h. induction evs1 as [|ev evs1 IH]; intros h; simpl; [done|].
  destruct (step ev h); simpl; [apply IH|done].
Qed.

Lemma lifecycle_split (evs : list (HookEvent Input Result)) :
  lifecycle evs = true ->
  existsb is_unmount evs = false \/
  exists pre lates, evs = pre ++ EvUnmount :: lates /\
    existsb is_unmount pre = false /\ forallb is_delivery lates = true /\
    existsb is_unmount evs = true.
Proof.
  induction evs as [|ev evs IH]; [by left|].
  destruct ev as [createWorker input|w sig|w sig|]; simpl;
    try (intros [Hno|(pre & lates & -> & Hpre & Hlates & Hun)]%IH;
         [by left|right; eexists (_ :: pre), lates; by rewrite Hun]).
  intros Hlates. right. by exists [], evs.
Qed.

(** Every run React can produce from a mount on a tame page goes through,
    keeps the invariant, and ends live (no unmount among the events) or
    unmounted with the current worker terminated. *)
Lemma run_lifecycle (createWorker : Factory) (input : Input) init
    (page0 : list (WorkerObj Input Result))
    (evs : list (HookEvent Input Result)) :
  tame page0 -> lifecycle evs = true ->
  exists h0 h', mount createWorker input init page0 = Normal h0 /\
    run evs h0 = Normal h' /\ hook_inv page0 init h' /\
    ((existsb is_unmount evs = false /\ live h') \/
     (existsb is_unmount evs = true /\ mounted h' = false /\
      silent (worker h') (page h'))).
Proof.
  intros Ht Hevs.
  destruct (mount_inv createWorker input init page0 Ht) as (h0 & Hm & Hl0 & Hinv0).
  exists h0.
  apply lifecycle_split in Hevs
    as [Hno|(pre & lates & -> & Hpre & Hlates & Hun)].
  - destruct (run_inv page0 init evs h0 Hl0 Hinv0 Hno) as (h' & Hr & Hl & Hinv).
    exists h'. split; [done|]. split; [done|]. split; [done|]. by left.
  - destruct (run_inv page0 init pre h0 Hl0 Hinv0 Hpre) as (h1 & Hr & Hl & Hinv).
    destruct (unmount_inv page0 init h1 Hl Hinv) as (Hinv' & Hm' & Hs').
    exists (unmount h1). split; [done|]. split.
    + rewrite run_app, Hr. simpl. by apply run_deliveries_unmounted.
    + split; [done|]. by right.
Qed.

(** X2. Every run React can produce from a mount on a tame page goes
    through without an exception, so the reducer's throwing branch is never
    reached from the hook, and the status of the state it ends in is not
    idle: idle is not seen again after the first commit. *)
Theorem hook_run_never_throws (createWorker : Factory) (input : Input) init
    (page0 : list (WorkerObj Input Result))
    (evs : list (HookEvent Input Result)) :
  tame page0 -> lifecycle evs = true ->
  exists h0 h', mount createWorker input init page0 = Normal h0 /\
    run evs h0 = Normal h' /\ status (state h') <> idle.
Proof.
  intros Ht Hevs.
  destruct (run_lifecycle createWorker input init page0 evs Ht Hevs)
    as (h0 & h' & Hm & Hr & (_ & _ & _ & _ & _ & Hst) & _).
  by exists h0, h'.
Qed.

(** X4. The instance touches only workers it made: at the end of every run
    from a mount, the workers that were on the page before are as they
    were. *)
Theorem hook_leaves_other_workers (createWorker : Factory) (input : Input)
    init (page0 : list (WorkerObj Input Result))
    (evs : list (HookEvent Input Result)) :
  tame page0 -> lifecycle evs = true ->
  exists h0 h', mount createWorker input init page0 = Normal h0 /\
    run evs h0 = Normal h' /\
    take (length page0) (page h') = page0 /\
    (forall w, w < length page0 -> page h' !! w = page0 !! w).
Proof.
  intros Ht Hevs.
  destruct (run_lifecycle createWorker input init page0 evs Ht Hevs)
    as (h0 & h' & Hm & Hr & (_ & Htake & _) & _).
  exists h0, h'. split; [done|]. split; [done|]. split; [done|].
  intros w Hw.
  rewrite <-(lookup_take_lt (page h') (length page0) w) by done.
  by rewrite Htake.
Qed.

End HookRuns.

(** Witnesses on the empty page and [sample_run]. *)

Lemma tame_nil : tame (Input:=nat) (Result:=nat) [].
Proof. intros w o sig a Ho. by rewrite lookup_nil in Ho. Qed.

Lemma hook_run_never_throws_witness :
  tame (Input:=nat) (Result:=nat) [] /\ lifecycle sample_run = true /\
  exists h0 h', mount 0 1 None [] = Normal h0 /\
    run sample_run h0 = Normal h' /\ status (state h') <> idle.
Proof.
  split; [exact tame_nil|]. split; [reflexivity|].
  exact (hook_run_never_throws 0 1 None [] sample_run tame_nil eq_refl).
Defined.

Lemma hook_leaves_other_workers_witness :
  tame [new_Worker (Input:=nat) (Result:=nat) 7] /\
  lifecycle sample_run = true /\
  exists h0 h', mount 0 1 None [new_Worker 7] = Normal h0 /\
    run sample_run h0 = Normal h' /\
    take 1 (page h') = [new_Worker 7].
Proof.
  assert (tame [new_Worker (Input:=nat) (Result:=nat) 7]) as Ht
    by exact (tame_app_new 7 [] tame_nil).
  split; [exact Ht|]. split; [reflexivity|].
  destruct (hook_leaves_other_workers 0 1 None [new_Worker 7] sample_run
              Ht eq_refl) as (h0 & h' & Hm & Hr & Htake & _).
  exists h0, h'. split; [exact Hm|]. split; [exact Hr|exact Htake].
Defined.

(** ** Requests and answers *)

Section HookCycles.
Context {Input Result : Type} `{!EqDecision Input}.
Implicit Types (h : Hook Input Result) (o : WorkerObj Input Result).
Implicit Types (sig : WorkerSignal Result) (a : Action Result).
Implicit Types (ev : HookEvent Input Result).

Lemma fire_observed_live sig h :
  live h ->
  exists s', workerMessageReducer (state h) (observed_action sig) = Normal s' /\
    fire (worker h) sig h
      = Normal (mkHook s' (dispatched h ++ [observed_action sig]) true
                       (createWorker_dep h) (worker h) (lastWorker h)
                       (input_dep h) (page h)).
Proof.
  intros (Hm & Hlw & o & Ho & Ht & Hb).
  destruct (reducer_returns_off_idle (state h) (observed_action sig))
    as [s' Hs']; [by destruct sig|].
  exists s'. split; [done|].
  unfold fire, call_observer. rewrite Ho, Ht. simpl. rewrite (Hb sig).
  rewrite dispatch_mounted by done. unfold unsafeDispatch.
  rewrite Hs', Hm. done.
Qed.

Lemma live_same_page (s : State Result) (d : list (Action Result)) h :
  live h ->
  live (mkHook s d true (createWorker_dep h) (worker h) (lastWorker h)
               (input_dep h) (page h)).
Proof. intros (Hm & Hlw & Ho). by split. Qed.

Lemma run_answers (f : Input -> Result) (xs : list Input) h :
  live h ->
  exists h',
    run (EvSignal (worker h) <$> ((fun x => SigMessage (f x)) <$> xs)) h
      = Normal h' /\
    live h' /\ worker h' = worker h /\ page h' = page h /\
    dispatched h' = dispatched h ++ ((fun x => ActResolved (f x)) <$> xs) /\
    (forall xs' x, xs = xs' ++ [x] ->
       state h' = mkState resolved (Some (f x)) None).
Proof.
  intros Hl. induction xs as [|x xs IH] using rev_ind.
  - exists h. simpl. rewrite app_nil_r. repeat (split; [done|]).
    intros xs' x Hxs. by destruct xs'.
  - destruct IH as (h1 & Hr & Hl1 & Hw & Hp & Hd & _).
    rewrite !fmap_app, run_app, Hr. simpl. rewrite <-Hw.
    destruct (fire_observed_live (SigMessage (f x)) h1 Hl1) as (s' & Hs' & ->).
    simpl in Hs'. injection Hs' as <-. simpl. eexists. split; [done|].
    split; [by apply live_same_page|]. simpl.
    split; [done|]. split; [done|].
    split; [by rewrite Hd, <-app_assoc|].
    intros xs' x' Hxs. by apply app_inj_tail in Hxs as [_ ->].
Qed.

(** X6. Once the worker has answered everything posted to it, the state is
    resolved with the answer to the latest input.  For a live instance whose
    current worker runs [registerWorker(f)], with [f] returning on every
    input, and was posted the inputs [xs] and then [x]: firing the answers
    dispatches one Resolved per input, in order, and ends in status
    resolved with result [f x] and no error. *)
Theorem answer_resolves_latest (f : Input -> Result) h o
    (xs : list Input) (x : Input) :
  live h -> page h !! worker h = Some o -> posted o = xs ++ [x] ->
  exists h', answer (pure_func f) (worker h) h = Normal h' /\
    live h' /\ state h' = mkState resolved (Some (f x)) None /\
    dispatched h'
      = dispatched h ++ ((fun x => ActResolved (f x)) <$> (xs ++ [x])) /\
    page h' = page h.
Proof.
  intros Hl Ho Hposted. unfold answer. rewrite Ho, deliver_all_pure, Hposted.
  simpl.
  destruct (run_answers f (xs ++ [x]) h Hl) as (h' & Hr & Hl' & _ & Hp & Hd & Hs).
  exists h'. split; [done|]. split; [done|]. split; [by eapply Hs|done].
Qed.

(** *** Deliveries and renders that change no argument *)

Lemma same_requests_refl h : same_requests h h.
Proof. by repeat split. Qed.

Lemma dispatch_tame sig h :
  exists h', dispatch (observed_action sig) h = Normal h' /\ same_requests h h'.
Proof.
  unfold dispatch, useSafeDispatch, unsafeDispatch.
  destruct (mounted h) eqn:Hm; [|exists h; by repeat split].
  destruct (reducer_returns_off_idle (state h) (observed_action sig))
    as [s' ->]; [by destruct sig|].
  simpl. eexists. split; [done|]. by repeat split.
Qed.

Lemma call_observer_tame w sig h :
  tame (page h) ->
  exists h', call_observer w sig h = Normal h' /\ same_requests h h'.
Proof.
  intros Ht. unfold call_observer.
  destruct (page h !! w) as [o|] eqn:Ho; simpl;
    [|exists h; split; [done|apply same_requests_refl]].
  destruct (observer o sig) as [a|] eqn:Hobs;
    [|exists h; split; [done|apply same_requests_refl]].
  rewrite (Ht w o sig a Ho Hobs). apply dispatch_tame.
Qed.

Lemma fire_tame w sig h :
  tame (page h) ->
  exists h', fire w sig h = Normal h' /\ same_requests h h'.
Proof.
  intros Ht. unfold fire.
  destruct (page h !! w) as [o|] eqn:Ho;
    [|exists h; split; [done|apply same_requests_refl]].
  destruct (terminated o); [|by apply call_observer_tame].
  exists h; split; [done|apply same_requests_refl].
Qed.

(** X8. Renders with the same [createWorker] and the same [input] send
    nothing and make no worker, however many they are and whatever the
    workers deliver in between: at the end of such a run the page, with the
    payloads posted to each worker, and the dependencies are as at its
    start; only the state and the dispatched actions may differ. *)
Theorem stable_args_send_nothing (evs : list (HookEvent Input Result)) h :
  tame (page h) ->
  forallb (keeps_args (createWorker_dep h) (input_dep h)) evs = true ->
  exists h', run evs h = Normal h' /\ same_requests h h'.
Proof.
  revert h. induction evs as [|ev evs IH]; intros h Ht Hevs; simpl.
  - exists h. split; [done|apply same_requests_refl].
  - simpl in Hevs. apply andb_prop in Hevs as [Hev Hevs].
    assert (exists h1, step ev h = Normal h1 /\ same_requests h h1)
      as (h1 & -> & Hsame).
    { destruct ev as [createWorker input|w sig|w sig|]; simpl in Hev |- *.
      - apply bool_decide_eq_true in Hev as [-> ->].
        rewrite rerender_same_input, refresh_worker_same by done.
        exists h. split; [done|apply same_requests_refl].
      - by apply fire_tame.
      - by apply call_observer_tame.
      - done. }
    simpl. destruct Hsame as (Hp & Hm & Hd & Hw & Hlw & Hi).
    destruct (IH h1) as (h' & Hr & Hp' & Hm' & Hd' & Hw' & Hlw' & Hi').
    { by rewrite Hp. }
    { by rewrite Hd, Hi. }
    exists h'. split; [done|]. unfold same_requests.
    by rewrite Hp', Hm', Hd', Hw', Hlw', Hi'.
Qed.

(** X9. The message observers of a live instance.  A message event on the
    current handle ends in status resolved with the payload as result and
    no error, whatever the status was and whichever input the payload
    answers; a messageerror event ends in status rejected with no result
    and the generic error "Worker message error". *)
Theorem message_observers_dispatch h :
  live h ->
  (forall d, exists h',
     fire (worker h) (SigMessage d) h = Normal h' /\
     state h' = mkState resolved (Some d) None /\
     dispatched h' = dispatched h ++ [ActResolved d] /\
     same_requests h h') /\
  (exists h',
     fire (worker h) SigMessageError h = Normal h' /\
     state h' = mkState rejected None (Some (mkError "Worker message error")) /\
     same_requests h h').
Proof.
  intros Hl. pose proof Hl as (Hm & _). split; [intros d|].
  - destruct (fire_observed_live (SigMessage d) h Hl) as (s' & Hs' & ->).
    simpl in Hs'. injection Hs' as <-. eexists. split; [done|].
    split; [done|]. split; [done|]. by repeat split.
  - destruct (fire_observed_live SigMessageError h Hl) as (s' & Hs' & ->).
    simpl in Hs'. injection Hs' as <-. eexists. split; [done|].
    split; [done|]. by repeat split.
Qed.

(** X10. The cleanup of the first effect terminates the old worker but
    leaves its observers assigned.  After a render with another
    [createWorker], events of the old handle are not fired any more, yet
    its observers are still the hook's and the instance is still mounted:
    called directly, they dispatch as before. *)
Theorem superseded_observers_stay_bound (createWorker : Factory) h :
  live h -> createWorker <> createWorker_dep h ->
  exists h1 o,
    rerender createWorker (input_dep h) h = Normal h1 /\
    mounted h1 = true /\ worker h1 <> worker h /\
    page h1 !! worker h = Some o /\ terminated o = true /\ bound o /\
    (forall sig, fire (worker h) sig h1 = Normal h1) /\
    (forall sig, exists s' h2,
       workerMessageReducer (state h) (observed_action sig) = Normal s' /\
       call_observer (worker h) sig h1 = Normal h2 /\ state h2 = s').
Proof.
  intros Hl Hne. pose proof Hl as (Hm & _ & o & Ho & _ & Hb).
  pose proof (lookup_lt_Some _ _ _ Ho) as Hlt.
  rewrite rerender_same_input.
  destruct (refresh_worker_keeps createWorker h) as (Hs & _ & Hm' & _).
  destruct (refresh_worker_fields createWorker h Hne)
    as (_ & _ & _ & _ & Hw & _).
  pose proof (refresh_worker_old createWorker h o Hne Ho) as Hold.
  assert (bound (terminate_obj o)) as Hb'.
  { intros sig. specialize (Hb sig). by destruct sig. }
  exists (refresh_worker createWorker h), (terminate_obj o).
  split; [done|]. split; [congruence|]. split; [lia|].
  split; [done|]. split; [done|]. split; [done|]. split.
  - intros sig. apply fire_silent. by exists (terminate_obj o).
  - intros sig.
    destruct (reducer_returns_off_idle (state h) (observed_action sig))
      as [s' Hs']; [by destruct sig|].
    unfold call_observer. rewrite Hold. simpl. rewrite (Hb' sig).
    rewrite dispatch_mounted by congruence. unfold unsafeDispatch.
    rewrite Hs, Hs'. simpl. by eexists _, _.
Qed.

End HookCycles.

(** ** The worker entry, message after message *)

Section WorkerEntryRuns.
Context {Input Result : Type}.
Implicit Types (self : WorkerGlobalScope Input Result).
Implicit Types (func : Input -> completion Result) (data : Input).

Lemma deliver_registered func data self :
  self_onmessage self = Some func ->
  deliver data self
    = mkScope (Some func) (to_owner self ++ responses func [data])
              (unhandled_rejections self ++ rejections func [data]).
Proof.
  intros Hon. unfold deliver, handler, handler_body, responses, rejections.
  rewrite Hon. simpl. destruct self as [on sent un]. simpl in *. subst on.
  destruct (func data); simpl; by rewrite app_nil_r.
Qed.

Lemma deliver_all_registered func (inputs : list Input) self :
  self_onmessage self = Some func ->
  deliver_all inputs self
    = mkScope (Some func) (to_owner self ++ responses func inputs)
              (unhandled_rejections self ++ rejections func inputs).
Proof.
  intros Hon. unfold deliver_all.
  induction inputs as [|x inputs IH] using rev_ind.
  - simpl. rewrite !app_nil_r. destruct self; simpl in *; by subst.
  - rewrite foldl_snoc, IH, (deliver_registered func) by done. simpl.
    unfold responses, rejections. by rewrite !omap_app, !app_assoc.
Qed.

Lemma deliver_all_unregistered (inputs : list Input) self :
  self_onmessage self = None -> deliver_all inputs self = self.
Proof.
  intros Hon. unfold deliver_all.
  induction inputs as [|x inputs IH] using rev_ind; [done|].
  rewrite foldl_snoc, IH. unfold deliver. by rewrite Hon.
Qed.

(** X11. A payload on which [func] throws costs its own answer only.  After
    any list of messages the worker has sent its owner exactly the results
    of the payloads on which [func] returned, in order and as messages (no
    error event ever), has kept the exceptions of the others as unhandled
    rejections, and still answers with [func]. *)
Theorem worker_isolates_throwing_inputs func (inputs : list Input) self :
  deliver_all inputs (registerWorker func self)
    = mkScope (Some func) (to_owner self ++ responses func inputs)
              (unhandled_rejections self ++ rejections func inputs) /\
  length (responses func inputs) + length (rejections func inputs)
    = length inputs /\
  (forall sig, sig ∈ responses func inputs ->
     exists data r, data ∈ inputs /\ func data = Normal r /\
       sig = SigMessage r) /\
  (forall e, e ∈ rejections func inputs ->
     exists data, data ∈ inputs /\ func data = Throw e).
Proof.
  split; [by rewrite (deliver_all_registered func) by done|].
  split; [|split].
  - unfold responses, rejections.
    induction inputs as [|x inputs IH]; [done|].
    change (x :: inputs) with ([x] ++ inputs).
    rewrite !omap_app, !length_app. simpl. destruct (func x); simpl; lia.
  - intros sig (data & Hin & Hsig)%list_elem_of_omap.
    destruct (func data) as [r|e] eqn:Hf; [|done].
    injection Hsig as <-. by exists data, r.
  - intros e (data & Hin & He)%list_elem_of_omap.
    destruct (func data) as [r|e'] eqn:Hf; [done|].
    injection He as <-. by exists data.
Qed.

(** X12. Registration is an assignment to the one handler slot.  A worker
    that never called [registerWorker] drops every message; after a second
    call the later function alone answers: the owner gets the answers of
    [f] to the messages that came before the second call, then those of
    [g]. *)
Theorem registerWorker_replaces_handler (f g : Input -> completion Result)
    (xs ys : list Input) self :
  deliver_all xs (mkScope None (to_owner self) (unhandled_rejections self))
    = mkScope None (to_owner self) (unhandled_rejections self) /\
  deliver_all ys (registerWorker g (deliver_all xs (registerWorker f self)))
    = mkScope (Some g)
        (to_owner self ++ responses f xs ++ responses g ys)
        (unhandled_rejections self ++ rejections f xs ++ rejections g ys).
Proof.
  split; [by apply deliver_all_unregistered|].
  rewrite (deliver_all_registered f xs) by done.
  rewrite (deliver_all_registered g ys) by done. simpl.
  by rewrite <-!app_assoc.
Qed.

End WorkerEntryRuns.

(** ** The demo worker *)

Lemma for_loop_closed (fuel : nat) (limit i : Z) :
  (0 <= i <= limit)%Z -> (limit - i <= Z.of_nat fuel)%Z ->
  for_loop fuel limit i ((i + 1) / 2 * ((i + 1) / 2 - 1))%Z
    = Some ((limit + 1) / 2 * ((limit + 1) / 2 - 1))%Z.
Proof.
  revert i. induction fuel as [|fuel IH]; intros i Hi Hfuel; simpl.
  - destruct (Z.ltb_spec i limit) as [Hlt|Hge]; [lia|].
    by replace i with limit by lia.
  - destruct (Z.ltb_spec i limit) as [Hlt|Hge];
      [|by replace i with limit by lia].
    rewrite Z.rem_mod_nonneg by lia.
    rewrite <-(IH (i + 1)%Z) by lia. f_equal.
    destruct (Z.eqb_spec (i mod 2) 0) as [Hev|Hodd].
    + assert (((i + 1) / 2 = i / 2 /\ (i + 1 + 1) / 2 = i / 2 + 1 /\
               i = 2 * (i / 2))%Z) as (-> & -> & Hi2)
        by (Z.div_mod_to_equations; lia).
      rewrite Hi2 at 3. ring.
    + assert (((i + 1 + 1) / 2 = (i + 1) / 2)%Z) as ->
        by (Z.div_mod_to_equations; lia).
      done.
Qed.

Lemma consecutive_even (k : Z) : Z.rem (k * (k - 1)) 2 = 0%Z.
Proof.
  rewrite Z.rem_divide by done.
  destruct (Z.even k) eqn:Hk.
  - apply Z.even_spec in Hk as [q ->]. exists (q * (2 * q - 1))%Z. lia.
  - assert (Z.odd k = true) as [q ->]%Z.odd_spec
      by (by rewrite <-Z.negb_even, Hk).
    exists ((2 * q + 1) * q)%Z. lia.
Qed.

(** X13. The demo function returns 9999999900000000 on every input, once
    the loop is given its 200000000 iterations.  Stopped at any bound [m]
    up to that limit, the loop returns k(k-1) with k the number of even
    numbers below [m]; every such sum is a non-negative even integer below
    2^54, hence one a double holds exactly. *)
Theorem computationHeavyFunction_sum (fuel : nat) (input : HeftyFunctionArgs) :
  (200000000 <= Z.of_nat fuel)%Z ->
  computationHeavyFunction fuel input = Some 9999999900000000%Z /\
  (forall m : Z, (0 <= m <= 200000000)%Z ->
     exists r, for_loop fuel m 0 0 = Some r /\
       r = ((m + 1) / 2 * ((m + 1) / 2 - 1))%Z /\
       (0 <= r <= 9999999900000000)%Z /\ double_exact r).
Proof.
  intros Hfuel. split.
  - exact (for_loop_closed fuel 200000000 0 ltac:(lia) ltac:(lia)).
  - intros m Hm. eexists. split.
    + exact (for_loop_closed fuel m 0 ltac:(lia) ltac:(lia)).
    + split; [reflexivity|].
      assert (0 <= (m + 1) / 2 <= 100000000)%Z as Hk
        by (Z.div_mod_to_equations; lia).
      assert (0 <= (m + 1) / 2 * ((m + 1) / 2 - 1) <= 9999999900000000)%Z
        as Hr by nia.
      split; [exact Hr|]. right. split; [|apply consecutive_even].
      rewrite Z.abs_eq by lia. lia.
Qed.

Lemma computationHeavyFunction_sum_witness :
  (200000000 <= Z.of_nat (Z.to_nat 200000000))%Z /\
  computationHeavyFunction (Z.to_nat 200000000) (mkArgs "foo" "bar")
    = Some 9999999900000000%Z.
Proof.
  assert (200000000 <= Z.of_nat (Z.to_nat 200000000))%Z as Hfuel
    by (rewrite Z2Nat.id; lia).
  split; [exact Hfuel|].
  exact (proj1 (computationHeavyFunction_sum (Z.to_nat 200000000)
                  (mkArgs "foo" "bar") Hfuel)).
Defined.

(** Witnesses on [mounted_hook]. *)

Lemma tame_mounted_hook : tame (page mounted_hook).
Proof.
  intros w o sig a Ho Hobs. destruct w as [|w]; simpl in Ho; [|done].
  injection Ho as <-. destruct sig; simpl in Hobs; by injection Hobs as <-.
Qed.

Lemma answer_resolves_latest_witness :
  live mounted_hook /\
  exists h', answer (pure_func S) (worker mounted_hook) mounted_hook = Normal h' /\
    state h' = mkState resolved (Some 2) None.
Proof.
  split; [exact live_mounted_hook|].
  destruct (answer_resolves_latest S mounted_hook _ [] 1 live_mounted_hook
              eq_refl eq_refl) as (h' & Ha & _ & Hs & _).
  exists h'. split; [exact Ha|exact Hs].
Defined.

Lemma stable_args_send_nothing_witness :
  tame (page mounted_hook) /\
  exists h', run [EvRender 0 1; EvSignal 0 (SigMessage 5); EvRender 0 1]
                 mounted_hook = Normal h' /\
    page h' = page mounted_hook.
Proof.
  split; [exact tame_mounted_hook|].
  destruct (stable_args_send_nothing
              [EvRender 0 1; EvSignal 0 (SigMessage 5); EvRender 0 1]
              mounted_hook tame_mounted_hook) as (h' & Hr & Hp & _);
    [reflexivity|].
  exists h'. split; [exact Hr|exact Hp].
Defined.

Lemma message_observers_dispatch_witness :
  live mounted_hook /\
  exists h', fire (worker mounted_hook) (SigMessage 5) mounted_hook = Normal h' /\
    state h' = mkState resolved (Some 5) None.
Proof.
  split; [exact live_mounted_hook|].
  destruct (message_observers_dispatch mounted_hook live_mounted_hook)
    as (Hmsg & _).
  destruct (Hmsg 5) as (h' & Hf & Hs & _).
  exists h'. split; [exact Hf|exact Hs].
Defined.

Lemma superseded_observers_stay_bound_witness :
  live mounted_hook /\ 1 <> createWorker_dep mounted_hook /\
  exists h1 h2, rerender 1 (input_dep mounted_hook) mounted_hook = Normal h1 /\
    fire 0 (SigMessage 5) h1 = Normal h1 /\
    call_observer 0 (SigMessage 5) h1 = Normal h2 /\
    state h2 = mkState resolved (Some 5) None.
Proof.
  split; [exact live_mounted_hook|].
  assert (1 <> createWorker_dep mounted_hook) as Hne by (simpl; lia).
  split; [exact Hne|].
  destruct (superseded_observers_stay_bound 1 mounted_hook live_mounted_hook Hne)
    as (h1 & o & Hr & _ & _ & _ & _ & _ & Hquiet & Hcall).
  destruct (Hcall (SigMessage 5)) as (s' & h2 & Hs' & Hc & Hs2).
  exists h1, h2. split; [exact Hr|]. split; [exact (Hquiet (SigMessage 5))|].
  split; [exact Hc|]. simpl in Hs'. injection Hs' as <-. exact Hs2.
Defined.

(** ** A render, what workers deliver next, and the effects *)

Section RenderEffectFacts.
Context {Input Result : Type} `{!EqDecision Input}.
Implicit Types (h : Hook Input Result) (o : WorkerObj Input Result).
Implicit Types (late : list (nat * WorkerSignal Result)).

Lemma run_deliveries_tame late h :
  tame (page h) ->
  exists h', run (deliveries late) h = Normal h' /\ same_requests h h'.
Proof.
  revert h. induction late as [|[w sig] late IH]; intros h Ht; simpl.
  - exists h. split; [done|apply same_requests_refl].
  - destruct (fire_tame w sig h Ht) as (h1 & -> & Hsame). simpl.
    destruct Hsame as (Hp & Hm & Hd & Hw & Hlw & Hi).
    destruct (IH h1) as (h' & Hr & Hp' & Hm' & Hd' & Hw' & Hlw' & Hi');
      [by rewrite Hp|].
    exists h'. split; [done|]. unfold same_requests.
    by rewrite Hp', Hm', Hd', Hw', Hlw', Hi'.
Qed.

Lemma same_requests_store h h' :
  same_requests h h' -> h' = with_store (state h') (dispatched h') h.
Proof.
  destruct h, h'. unfold same_requests, with_store. simpl.
  by intros (-> & -> & -> & -> & -> & ->).
Qed.

Lemma live_with_store (s : State Result) (d : list (Action Result)) h :
  live h -> live (with_store s d h).
Proof. by intros (Hm & Hlw & Ho). Qed.

(** With nothing in between, a render and its effects are [rerender]. *)
Lemma render_then_flush (createWorker : Factory) (input : Input) h :
  flush_effects (render_phase createWorker input h).2
                (render_phase createWorker input h).1
    = rerender createWorker input h.
Proof.
  unfold flush_effects, commit_worker, render_phase, rerender, refresh_worker.
  simpl. by repeat case_decide.
Qed.

Lemma commit_after_deliveries (createWorker : Factory) (input : Input)
    (s : State Result) (d : list (Action Result)) h :
  commit_worker (render_phase createWorker input h).2
      (with_store s d (render_phase createWorker input h).1)
    = refresh_worker createWorker (with_store s d h).
Proof.
  unfold commit_worker, render_phase, refresh_worker. simpl.
  by case_decide.
Qed.


End RenderEffectFacts.

